(** * github-monitor-analysis: the aggregation logic of the dashboard

    A shallow embedding of the data reductions of the React components
    (roster loading, repository-locator parsing, commit aggregation,
    commit-quality scoring, event aggregation, credential validation) and
    the properties stated about them.

    Conventions of the embedding.
    - A JavaScript string is a [string]: one [ascii] per UTF-16 code unit,
      for text whose code units are below 256 (ASCII and Latin-1).
    - Counters are JavaScript numbers holding integers: [Z].  Quotients are
      exact rationals ([Q]); the rounding error of IEEE doubles is not
      modelled.
    - An instant ([Date]) is its time value, milliseconds since the epoch,
      in [Z].  Calendar arithmetic ([setDate]) is that of a zone without
      clock changes: one day is 86400000 ms.  The date key
      [toISOString().split('T')[0]] is represented by the number of the UTC
      day, which it determines and is determined by.
    - Component state ([useState]) and [localStorage] are threaded
      explicitly. *)

From Stdlib Require Import ZArith QArith Qround String Ascii List Lia Bool.
From Stdlib Require Import DecimalString Lqa.
From stdpp Require Import base option list gmap sorting.
From Equations Require Import Equations.
Import ListNotations.

Local Open Scope string_scope.
Local Open Scope Z_scope.

(** ** JavaScript primitives used by the components *)

Module JS.

(** Code units that [String.prototype.trim] strips (WhiteSpace and
    LineTerminator below 256): TAB, LF, VT, FF, CR, SP, NBSP. *)
Definition isWhiteSpace (c : ascii) : bool :=
  let n := nat_of_ascii c in
  ((9 <=? n)%nat && (n <=? 13)%nat) || (n =? 32)%nat || (n =? 160)%nat.

Fixpoint trimStart (s : string) : string :=
  match s with
  | EmptyString => EmptyString
  | String c s' => if isWhiteSpace c then trimStart s' else s
  end.

(** [trimEnd] keeps a character when it is not white space or when
    something remains after it. *)
Fixpoint trimEnd (s : string) : string :=
  match s with
  | EmptyString => EmptyString
  | String c s' =>
      match trimEnd s' with
      | EmptyString => if isWhiteSpace c then EmptyString else String c EmptyString
      | r => String c r
      end
  end.

Definition trim (s : string) : string := trimEnd (trimStart s).

(** [s.length] *)
Definition length (s : string) : Z := Z.of_nat (String.length s).

(** [s.split(sep)] for a one-character separator: never the empty list. *)
Fixpoint split (sep : ascii) (s : string) : list string :=
  match s with
  | EmptyString => [EmptyString]
  | String c s' =>
      if Ascii.eqb c sep then EmptyString :: split sep s'
      else match split sep s' with
           | [] => [String c EmptyString]
           | w :: ws => String c w :: ws
           end
  end.

(** Whether the code unit [c] occurs in [s]. *)
Fixpoint hasChar (c : ascii) (s : string) : bool :=
  match s with
  | EmptyString => false
  | String c' s' => Ascii.eqb c' c || hasChar c s'
  end.

(** Truthiness of a string: non-empty. *)
Definition truthy (s : string) : bool :=
  match s with EmptyString => false | _ => true end.

(** [hay.includes(needle)] *)
Fixpoint includes (hay needle : string) : bool :=
  String.prefix needle hay ||
  match hay with
  | EmptyString => false
  | String _ hay' => includes hay' needle
  end.

(** [toLowerCase] on Latin-1: A-Z, and the accented capitals 0xC0-0xDE
    other than the multiplication sign 0xD7, move up by 32. *)
Definition lowerChar (c : ascii) : ascii :=
  let n := nat_of_ascii c in
  if ((65 <=? n)%nat && (n <=? 90)%nat) ||
     ((192 <=? n)%nat && (n <=? 222)%nat && negb (n =? 215)%nat)
  then ascii_of_nat (n + 32) else c.

Fixpoint toLowerCase (s : string) : string :=
  match s with
  | EmptyString => EmptyString
  | String c s' => String (lowerChar c) (toLowerCase s')
  end.

(** [Math.round]: the nearest integer, halves going up. *)
Definition round (x : Q) : Z := Qfloor (x + (1 # 2)).

(** [Math.max] on integers, and an integer read as a number. *)
Definition max (a b : Z) : Z := Z.max a b.
Definition num (z : Z) : Q := inject_Z z.

(** *** Plain objects used as dictionaries ([{} as Record<string, V>])

    The own properties, in the order of their creation.  Every value the
    components store is an object or a positive count, hence truthy. *)
Definition Obj (V : Type) : Type := list (string * V).

Fixpoint ownGet {V} (k : string) (o : Obj V) : option V :=
  match o with
  | [] => None
  | (k', v) :: o' => if String.eqb k k' then Some v else ownGet k o'
  end.

(** The own keys, in creation order. *)
Definition ownKeys {V} (o : Obj V) : list string := List.map fst o.

(** [o[k] = v]: an existing property keeps its place, a new one goes last. *)
Fixpoint set {V} (k : string) (v : V) (o : Obj V) : Obj V :=
  match o with
  | [] => [(k, v)]
  | (k', v') :: o' => if String.eqb k k' then (k, v) :: o' else (k', v') :: set k v o'
  end.

(** The properties every [{}] inherits from [Object.prototype]; reading
    one of them yields a function (or the prototype itself): truthy. *)
Definition objectPrototype : list string :=
  ["constructor"; "__defineGetter__"; "__defineSetter__"; "hasOwnProperty";
   "__lookupGetter__"; "__lookupSetter__"; "isPrototypeOf";
   "propertyIsEnumerable"; "toString"; "valueOf"; "__proto__"; "toLocaleString"].

Definition inherited (k : string) : bool := existsb (String.eqb k) objectPrototype.

(** A key is an array index when it is the decimal numeral of an integer
    below 2^32 - 1. *)
Definition arrayIndex (k : string) : option N :=
  match NilZero.uint_of_string k with
  | Some u =>
      let n := N.of_uint u in
      if String.eqb (NilZero.string_of_uint (N.to_uint n)) k && (n <=? 4294967294)%N
      then Some n else None
  | None => None
  end.

Definition isArrayIndex (k : string) : bool :=
  match arrayIndex k with Some _ => true | None => false end.

Definition indexOf (k : string) : N :=
  match arrayIndex k with Some n => n | None => 0%N end.

(** [Array.prototype.sort(compare)]: stable; [a] stays before [b] unless
    [compare a b > 0]. *)
Fixpoint insert {A} (compare : A -> A -> Z) (x : A) (l : list A) : list A :=
  match l with
  | [] => [x]
  | y :: l' => if 0 <? compare x y then y :: insert compare x l' else x :: y :: l'
  end.

Definition sort {A} (compare : A -> A -> Z) (l : list A) : list A :=
  List.fold_right (insert compare) [] l.

(** [Object.entries]: array-index keys first, in ascending numeric order,
    then the other keys in the order of their creation. *)
Definition entries {V} (o : Obj V) : list (string * V) :=
  sort (fun a b => Z.of_N (indexOf (fst a)) - Z.of_N (indexOf (fst b)))
       (List.filter (fun kv => isArrayIndex (fst kv)) o)
  ++ List.filter (fun kv => negb (isArrayIndex (fst kv))) o.

End JS.

(** ** Instants and calendar days *)

Module Time.

(** [1000 * 60 * 60 * 24] *)
Definition DAY : Z := 86400000.

(** [d.toISOString().split('T')[0]], as the number of the UTC day. *)
Definition isoDate (t : Z) : Z := t / DAY.

(** [d.setDate(d.getDate() + k)] *)
Definition addDays (t k : Z) : Z := t + k * DAY.

End Time.

(** ** [extractRepoInfo]

    Every component that talks to the API carries the same
    [extractRepoInfo] (CommitAnalytics.tsx, CommitQualityAnalysis.tsx, the
    activity and the repository-info components).  It is written over the
    platform's URL parser: [pathname url] is [new URL(url).pathname], or
    [None] when the constructor throws.  The error thrown for a short
    path is caught by the function's own [catch], so both failures leave
    with 'Invalid GitHub URL'. *)

Module GitHubUrl.

Inductive UrlError := InvalidUrlError. (* 'Invalid GitHub URL' *)

Record RepoInfo := {
  owner : string;
  repo : string
}.

(** [url.pathname.split('/').filter(Boolean)] *)
Definition pathParts (path : string) : list string :=
  List.filter JS.truthy (JS.split "/"%char path).

Definition extractRepoInfo (pathname : string -> option string) (githubUrl : string)
    : UrlError + RepoInfo :=
  match pathname githubUrl with
  | None => inl InvalidUrlError
  | Some path =>
      match pathParts path with
      | o :: r :: _ => inr {| owner := o; repo := r |}
      | _ => inl InvalidUrlError
      end
  end.

End GitHubUrl.

(** ** CommitQualityAnalysis.tsx *)

Module CommitQualityAnalysis.

(** [CommitData] as this component declares it; [date] is the parsed
    instant. *)
Record CommitData := {
  sha : string;
  message : string;      (* commit.message *)
  author_name : string;  (* commit.author.name *)
  author_date : Z        (* commit.author.date *)
}.

Record CommitPatterns := {
  fix_ : Z;
  feat : Z;
  refactor : Z;
  docs : Z;
  test : Z;
  style : Z;
  other : Z
}.

Record QualityMetrics := {
  totalCommits : Z;
  commitsWithDescription : Z;
  emptyMessages : Z;
  shortMessages : Z;
  averageMessageLength : Z;
  hasReadme : bool;
  readmeContent : string;
  commitPatterns : CommitPatterns
}.

(** The counters that the [forEach] callback updates. *)
Record Counters := {
  c_commitsWithDescription : Z;
  c_emptyMessages : Z;
  c_shortMessages : Z;
  c_totalMessageLength : Z;
  c_commitPatterns : CommitPatterns
}.

Definition noPatterns : CommitPatterns :=
  {| fix_ := 0; feat := 0; refactor := 0; docs := 0; test := 0; style := 0; other := 0 |}.

Definition initialCounters : Counters :=
  {| c_commitsWithDescription := 0; c_emptyMessages := 0; c_shortMessages := 0;
     c_totalMessageLength := 0; c_commitPatterns := noPatterns |}.

(** [message.split('\n').filter(line => line.trim())] *)
Definition nonBlankLines (message : string) : list string :=
  List.filter (fun line => JS.truthy (JS.trim line)) (JS.split "010"%char message).

(** The if/else-if chain over [lowerMessage.includes(...)]. *)
Definition categorize (lowerMessage : string) (p : CommitPatterns) : CommitPatterns :=
  let inc := JS.includes lowerMessage in
  if inc "fix" || inc "bug" || inc "patch" then
    {| fix_ := fix_ p + 1; feat := feat p; refactor := refactor p; docs := docs p;
       test := test p; style := style p; other := other p |}
  else if inc "feat" || inc "add" || inc "new" then
    {| fix_ := fix_ p; feat := feat p + 1; refactor := refactor p; docs := docs p;
       test := test p; style := style p; other := other p |}
  else if inc "refactor" || inc "cleanup" || inc "reorganize" then
    {| fix_ := fix_ p; feat := feat p; refactor := refactor p + 1; docs := docs p;
       test := test p; style := style p; other := other p |}
  else if inc "doc" || inc "readme" || inc "comment" then
    {| fix_ := fix_ p; feat := feat p; refactor := refactor p; docs := docs p + 1;
       test := test p; style := style p; other := other p |}
  else if inc "test" || inc "spec" then
    {| fix_ := fix_ p; feat := feat p; refactor := refactor p; docs := docs p;
       test := test p + 1; style := style p; other := other p |}
  else if inc "style" || inc "format" || inc "lint" then
    {| fix_ := fix_ p; feat := feat p; refactor := refactor p; docs := docs p;
       test := test p; style := style p + 1; other := other p |}
  else
    {| fix_ := fix_ p; feat := feat p; refactor := refactor p; docs := docs p;
       test := test p; style := style p; other := other p + 1 |}.

(** The body of [commits.forEach(commit => ...)]. *)
Definition analyzeCommit (acc : Counters) (commit : CommitData) : Counters :=
  let message := JS.trim (message commit) in
  let lines := nonBlankLines message in
  let totalMessageLength := c_totalMessageLength acc + JS.length message in
  let emptyMessages :=
    if negb (JS.truthy message) then c_emptyMessages acc + 1 else c_emptyMessages acc in
  let shortMessages :=
    if negb (JS.truthy message) then c_shortMessages acc
    else if JS.length message <? 10 then c_shortMessages acc + 1
    else c_shortMessages acc in
  let commitsWithDescription :=
    if 1 <? Z.of_nat (List.length lines) then c_commitsWithDescription acc + 1
    else c_commitsWithDescription acc in
  let lowerMessage := JS.toLowerCase message in
  {| c_commitsWithDescription := commitsWithDescription;
     c_emptyMessages := emptyMessages;
     c_shortMessages := shortMessages;
     c_totalMessageLength := totalMessageLength;
     c_commitPatterns := categorize lowerMessage (c_commitPatterns acc) |}.

(** The message analysis of [analyzeCommitQuality], after the README
    request settled with [hasReadme] and [readmeContent]. *)
Definition analyzeCommitQuality
    (hasReadme : bool) (readmeContent : string) (commits : list CommitData)
    : QualityMetrics :=
  let totalCommits := Z.of_nat (List.length commits) in
  let acc := List.fold_left analyzeCommit commits initialCounters in
  let averageMessageLength :=
    if 0 <? totalCommits
    then JS.round (JS.num (c_totalMessageLength acc) / JS.num totalCommits)
    else 0 in
  {| totalCommits := totalCommits;
     commitsWithDescription := c_commitsWithDescription acc;
     emptyMessages := c_emptyMessages acc;
     shortMessages := c_shortMessages acc;
     averageMessageLength := averageMessageLength;
     hasReadme := hasReadme;
     readmeContent := readmeContent;
     commitPatterns := c_commitPatterns acc |}.

(** The number handed to [Math.round] in [qualityScore]. *)
Definition rawScore (metrics : QualityMetrics) : Q :=
  (JS.num (commitsWithDescription metrics) / JS.num (JS.max (totalCommits metrics) 1)) * 40 +
  (JS.num (totalCommits metrics - emptyMessages metrics - shortMessages metrics)
     / JS.num (JS.max (totalCommits metrics) 1)) * 30 +
  (if hasReadme metrics then 20 else 0) +
  (if 20 <? averageMessageLength metrics then 10 else 0).

Definition qualityScore (metrics : QualityMetrics) : Z := JS.round (rawScore metrics).

(** The [metrics] state after the effect ran for [commits]: the analysis
    runs only for a non-empty list, and a locator that does not parse is
    caught and logged; in both cases the state is left as it was. *)
Definition metricsAfterEffect
    (pathname : string -> option string) (githubUrl : string)
    (previous : option QualityMetrics)
    (hasReadme : bool) (readmeContent : string) (commits : list CommitData)
    : option QualityMetrics :=
  if 0 <? Z.of_nat (List.length commits)
  then match GitHubUrl.extractRepoInfo pathname githubUrl with
       | inr _ => Some (analyzeCommitQuality hasReadme readmeContent commits)
       | inl _ => previous
       end
  else previous.

(** What the component shows: nothing without metrics, else the score. *)
Definition renderedScore (metrics : option QualityMetrics) : option Z :=
  option_map qualityScore metrics.

End CommitQualityAnalysis.


(** ** CommitAnalytics.tsx *)

Module CommitAnalytics.

Record Author := {
  login : string;
  avatar_url : string
}.

(** [CommitData]: [commit.author.{name,email,date}], [commit.message] and
    the optional account [author]. *)
Record CommitData := {
  sha : string;
  commit_author_name : string;
  commit_author_email : string;
  commit_author_date : Z;
  commit_message : string;
  author : option Author
}.

(** [DateRange] of react-day-picker: both ends optional. *)
Record DateRange := {
  from : option Z;
  to : option Z
}.

Record TrendPoint := {
  date : Z;       (* the day the label is formatted from *)
  commits : Z
}.

Record ContributorData := {
  count : Z;
  avatar : option string
}.

Record Contributor := {
  name : string;
  contributor_commits : Z;
  contributor_avatar : option string
}.

(** The weekday histogram [dailyActivity] is left out: nothing stated below
    reads it. *)
Record AnalyticsData := {
  totalCommits : Z;
  commitTrend : list TrendPoint;
  topContributors : list Contributor;
  recentCommits : list CommitData
}.

(** [commits.reduce] into [commitsByDate]. *)
Definition countByDate (acc : gmap Z Z) (commit : CommitData) : gmap Z Z :=
  let date := Time.isoDate (commit_author_date commit) in
  <[date := default 0 (acc !! date) + 1]> acc.

Definition commitsByDate (commits : list CommitData) : gmap Z Z :=
  List.fold_left countByDate commits ∅.

(** The [while (currentDate <= endDate)] loop of [generateDateRange]; it
    terminates because the number of whole days left up to [endDate]
    decreases. *)
Equations? datesUntil (currentDate endDate : Z) : list Z
    by wf (Z.to_nat ((endDate - currentDate) / Time.DAY + 1)) lt :=
  datesUntil currentDate endDate with Z_le_gt_dec currentDate endDate => {
    | left _ := Time.isoDate currentDate :: datesUntil (Time.addDays currentDate 1) endDate;
    | right _ := [] }.
Proof.
  unfold Time.addDays.
  replace (endDate - (currentDate + 1 * Time.DAY))
    with ((endDate - currentDate) + (-1) * Time.DAY) by lia.
  rewrite Z.div_add by (unfold Time.DAY; lia).
  assert (0 <= (endDate - currentDate) / Time.DAY)
    by (apply Z.div_pos; unfold Time.DAY; lia).
  lia.
Qed.

(** [Array.from({ length: n }, (_, i) => f i)] *)
Definition arrayFrom {A} (n : nat) (f : Z -> A) : list A :=
  List.map (fun i => f (Z.of_nat i)) (List.seq 0 n).

Definition generateDateRange (now : Z) (dateRange : option DateRange) : list Z :=
  match dateRange with
  | Some {| from := Some f; to := Some t |} => datesUntil f t
  | _ => arrayFrom 30 (fun i => Time.isoDate (Time.addDays now (- (29 - i))))
  end.

Definition contributorName (commit : CommitData) : string :=
  match author commit with
  | Some a => if JS.truthy (login a) then login a else commit_author_name commit
  | None => commit_author_name commit
  end.

(** One step of the [contributorCounts] reduction.  For a name that [{}]
    inherits, [acc[name]] is already truthy and [count++] lands on the
    inherited object: no own property appears. *)
Definition countContributor (acc : JS.Obj ContributorData) (commit : CommitData)
    : JS.Obj ContributorData :=
  let name := contributorName commit in
  let avatar := option_map avatar_url (author commit) in
  match JS.ownGet name acc with
  | Some d => JS.set name {| count := count d + 1; avatar := CommitAnalytics.avatar d |} acc
  | None =>
      if JS.inherited name then acc
      else JS.set name {| count := 0 + 1; avatar := avatar |} acc
  end.

Definition contributorCounts (commits : list CommitData) : JS.Obj ContributorData :=
  List.fold_left countContributor commits [].

Definition byCountDescending (a b : string * ContributorData) : Z :=
  count (snd b) - count (snd a).

(** [([name, data]) => ({ name, commits: data.count, avatar: data.avatar })] *)
Definition asContributor (e : string * ContributorData) : Contributor :=
  {| name := fst e; contributor_commits := count (snd e);
     contributor_avatar := avatar (snd e) |}.

Definition rankContributors (counts : JS.Obj ContributorData) : list Contributor :=
  List.map asContributor
    (List.firstn 5 (JS.sort byCountDescending (JS.entries counts))).

(** [processCommitData], with the clock reading [now] and the [dateRange]
    state made arguments. *)
Definition processCommitData (now : Z) (dateRange : option DateRange)
    (commits : list CommitData) : AnalyticsData :=
  let byDate := commitsByDate commits in
  let dateRangeDays := generateDateRange now dateRange in
  {| totalCommits := Z.of_nat (List.length commits);
     commitTrend :=
       List.map (fun d => {| date := d; commits := default 0 (byDate !! d) |}) dateRangeDays;
     topContributors := rankContributors (contributorCounts commits);
     recentCommits := List.firstn 10 commits |}.

(** A commit as the quality component reads it. *)
Definition asQualityCommit (c : CommitData) : CommitQualityAnalysis.CommitData :=
  {| CommitQualityAnalysis.sha := sha c;
     CommitQualityAnalysis.message := commit_message c;
     CommitQualityAnalysis.author_name := commit_author_name c;
     CommitQualityAnalysis.author_date := commit_author_date c |}.

(** [<CommitQualityAnalysis commits={analytics.recentCommits} />] *)
Definition qualityInput (analytics : AnalyticsData) : list CommitQualityAnalysis.CommitData :=
  List.map asQualityCommit (recentCommits analytics).

(** The metrics the quality component derives for a fetched commit list. *)
Definition qualityOfFetch (now : Z) (dateRange : option DateRange)
    (hasReadme : bool) (readmeContent : string) (commits : list CommitData)
    : CommitQualityAnalysis.QualityMetrics :=
  CommitQualityAnalysis.analyzeCommitQuality hasReadme readmeContent
    (qualityInput (processCommitData now dateRange commits)).

End CommitAnalytics.

(** ** FileUpload.tsx *)

Module FileUpload.

(** A cell value as [sheet_to_json] delivers it. *)
Inductive Cell :=
| CString (s : string)
| CNumber (n : Z)
| CBoolean (b : bool).

(** A row object, read through the two columns the component looks at;
    [None] is a key the row does not have. *)
Record Row := {
  TeamName : option Cell;
  GitHubURL : option Cell
}.

Inductive UploadError :=
| EmptyFileError      (* 'Excel file is empty' *)
| SchemaError         (* 'Excel file must contain "TeamName" and "GitHubURL" columns' *)
| NoValidRowsError.   (* 'No valid team data found in Excel file' *)

(** ['key' in row] *)
Definition hasKey (field : option Cell) : bool :=
  match field with Some _ => true | None => false end.

(** Truthiness of [row.key]; a missing key reads [undefined]. *)
Definition truthy (field : option Cell) : bool :=
  match field with
  | Some (CString s) => JS.truthy s
  | Some (CNumber n) => negb (n =? 0)
  | Some (CBoolean b) => b
  | None => false
  end.

(** [typeof row.key === 'string'] *)
Definition isString (field : option Cell) : bool :=
  match field with Some (CString _) => true | _ => false end.

Definition validTeam (team : Row) : bool :=
  truthy (TeamName team) && truthy (GitHubURL team) &&
  isString (TeamName team) && isString (GitHubURL team).

(** The validation of [processExcelFile], from the parsed rows on: the
    error handed to [onError], or the teams handed to [onDataLoaded]. *)
Definition processExcelFile (jsonData : list Row) : UploadError + list Row :=
  match jsonData with
  | [] => inl EmptyFileError
  | firstRow :: _ =>
      if negb (hasKey (TeamName firstRow)) || negb (hasKey (GitHubURL firstRow))
      then inl SchemaError
      else
        let validTeams := List.filter validTeam jsonData in
        match validTeams with
        | [] => inl NoValidRowsError
        | _ => inr validTeams
        end
  end.

(** The reading of the roster rules with "lacks both" and "present and
    strings" taken literally, for comparison with [processExcelFile]. *)
Definition presentAndString (team : Row) : bool :=
  isString (TeamName team) && isString (GitHubURL team).

Definition rosterLoaderAsStated (rows : list Row) : UploadError + list Row :=
  match rows with
  | [] => inl EmptyFileError
  | firstRow :: _ =>
      if negb (hasKey (TeamName firstRow)) && negb (hasKey (GitHubURL firstRow))
      then inl SchemaError
      else
        match List.filter presentAndString rows with
        | [] => inl NoValidRowsError
        | kept => inr kept
        end
  end.

End FileUpload.

(** ** GitHubTokenManager.tsx *)

Module GitHubTokenManager.

Inductive TokenStatus := none | valid | invalid | checking.

(** The component's state, the [github_token] entry of [localStorage] and
    the last value passed to [onTokenChange]. *)
Record State := {
  token : string;
  tokenStatus : TokenStatus;
  github_token : option string;
  reported : option string
}.

(** Effects on that state. *)
Definition M (A : Type) : Type := State -> A * State.

#[global] Instance M_ret : MRet M := fun A a s => (a, s).
#[global] Instance M_bind : MBind M :=
  fun A B k m s => let (a, s') := m s in k a s'.

Definition setToken (t : string) : M unit :=
  fun s => (tt, {| token := t; tokenStatus := tokenStatus s;
                   github_token := github_token s; reported := reported s |}).

Definition setTokenStatus (st : TokenStatus) : M unit :=
  fun s => (tt, {| token := token s; tokenStatus := st;
                   github_token := github_token s; reported := reported s |}).

Definition setItem (v : string) : M unit :=
  fun s => (tt, {| token := token s; tokenStatus := tokenStatus s;
                   github_token := Some v; reported := reported s |}).

Definition removeItem : M unit :=
  fun s => (tt, {| token := token s; tokenStatus := tokenStatus s;
                   github_token := None; reported := reported s |}).

Definition onTokenChange (t : string) : M unit :=
  fun s => (tt, {| token := token s; tokenStatus := tokenStatus s;
                   github_token := github_token s; reported := Some t |}).

(** How the identity request for a token ends: a response, [ok] or not,
    or a rejected promise. *)
Inductive FetchResult :=
| Response (ok : bool)
| Rejected.

Definition validateToken (fetch : string -> FetchResult) (tokenToValidate : string) : M unit :=
  if negb (JS.truthy (JS.trim tokenToValidate)) then
    setTokenStatus none
  else
    setTokenStatus checking ;;
    match fetch tokenToValidate with
    | Response true =>
        setTokenStatus valid ;; setItem tokenToValidate ;; onTokenChange tokenToValidate
    | Response false =>
        setTokenStatus invalid ;; removeItem ;; onTokenChange ""
    | Rejected =>
        setTokenStatus invalid ;; removeItem ;; onTokenChange ""
    end.

Definition handleClearToken : M unit :=
  setToken "" ;; setTokenStatus none ;; removeItem ;; onTokenChange "".

Definition run (m : M unit) (s : State) : State := snd (m s).

End GitHubTokenManager.

(** ** GitActivityAnalysis.tsx *)

Module GitActivityAnalysis.

Record GitEvent := {
  id : string;
  type : string;
  actor_login : string;
  actor_avatar_url : string;
  created_at : Z
}.

Record Activity := {
  pushes : Z;
  pulls : Z;
  merges : Z
}.

Record Member := {
  member_activity : Activity;
  member_avatar : string
}.

Record MemberRow := {
  member : string;
  member_pushes : Z;
  member_pulls : Z;
  member_merges : Z;
  total : Z;
  avatar : string
}.

Record DayRow := {
  date : Z;       (* the day the label is formatted from *)
  day_pushes : Z;
  day_pulls : Z;
  day_merges : Z
}.

Record ActivityMetrics := {
  pushEvents : Z;
  pullRequestEvents : Z;
  mergeEvents : Z;
  totalEvents : Z;
  memberActivity : list MemberRow;
  dailyActivity : list DayRow;
  eventDistribution : list (string * Z)
}.

(** The variables the [forEach] callback updates. *)
Record Tally := {
  t_memberActivity : JS.Obj Member;
  t_dailyActivity : gmap Z Activity;
  t_pushEvents : Z;
  t_pullRequestEvents : Z;
  t_mergeEvents : Z
}.

Definition noActivity : Activity := {| pushes := 0; pulls := 0; merges := 0 |}.

(** The cases of [switch (event.type)]. *)
Inductive Kind := Push | PullRequest | Merge | Ignored.

Definition kindOf (type : string) : Kind :=
  if String.eqb type "PushEvent" then Push
  else if String.eqb type "PullRequestEvent" then PullRequest
  else if String.eqb type "PullRequestReviewEvent" then Merge
  else if String.eqb type "MergeEvent" then Merge
  else Ignored.

Definition bump (k : Kind) (a : Activity) : Activity :=
  match k with
  | Push => {| pushes := pushes a + 1; pulls := pulls a; merges := merges a |}
  | PullRequest => {| pushes := pushes a; pulls := pulls a + 1; merges := merges a |}
  | Merge => {| pushes := pushes a; pulls := pulls a; merges := merges a + 1 |}
  | Ignored => a
  end.

(** The body of [events.forEach(event => ...)].  A member name that [{}]
    inherits gets no own entry; its increments land on the inherited
    object. *)
Definition countEvent (acc : Tally) (event : GitEvent) : Tally :=
  let member := actor_login event in
  let date := Time.isoDate (created_at event) in
  let k := kindOf (type event) in
  let members :=
    match JS.ownGet member (t_memberActivity acc) with
    | Some _ => t_memberActivity acc
    | None =>
        if JS.inherited member then t_memberActivity acc
        else JS.set member {| member_activity := noActivity;
                              member_avatar := actor_avatar_url event |}
                    (t_memberActivity acc)
    end in
  let days :=
    match t_dailyActivity acc !! date with
    | Some _ => t_dailyActivity acc
    | None => <[date := noActivity]> (t_dailyActivity acc)
    end in
  {| t_memberActivity :=
       match JS.ownGet member members with
       | Some m => JS.set member {| member_activity := bump k (member_activity m);
                                    member_avatar := member_avatar m |} members
       | None => members
       end;
     t_dailyActivity := <[date := bump k (default noActivity (days !! date))]> days;
     t_pushEvents := match k with Push => t_pushEvents acc + 1 | _ => t_pushEvents acc end;
     t_pullRequestEvents :=
       match k with PullRequest => t_pullRequestEvents acc + 1 | _ => t_pullRequestEvents acc end;
     t_mergeEvents := match k with Merge => t_mergeEvents acc + 1 | _ => t_mergeEvents acc end |}.

Definition emptyTally : Tally :=
  {| t_memberActivity := []; t_dailyActivity := ∅;
     t_pushEvents := 0; t_pullRequestEvents := 0; t_mergeEvents := 0 |}.

Definition memberRow (e : string * Member) : MemberRow :=
  let a := member_activity (snd e) in
  {| member := fst e; member_pushes := pushes a; member_pulls := pulls a;
     member_merges := merges a; total := pushes a + pulls a + merges a;
     avatar := member_avatar (snd e) |}.

(** [dailyActivity[date]?.field || 0] *)
Definition dayField (field : Activity -> Z) (days : gmap Z Activity) (date : Z) : Z :=
  default 0 (field <$> days !! date).

(** [processGitEvents], with the clock reading [now] made an argument. *)
Definition processGitEvents (now : Z) (events : list GitEvent) : ActivityMetrics :=
  let acc := List.fold_left countEvent events emptyTally in
  let memberActivityArray :=
    List.firstn 10
      (JS.sort (fun a b => total b - total a)
         (List.map memberRow (JS.entries (t_memberActivity acc)))) in
  let last30Days :=
    CommitAnalytics.arrayFrom 30 (fun i => Time.isoDate (Time.addDays now (- (29 - i)))) in
  let dailyActivityArray :=
    List.map (fun date =>
      {| date := date;
         day_pushes := dayField pushes (t_dailyActivity acc) date;
         day_pulls := dayField pulls (t_dailyActivity acc) date;
         day_merges := dayField merges (t_dailyActivity acc) date |}) last30Days in
  {| pushEvents := t_pushEvents acc;
     pullRequestEvents := t_pullRequestEvents acc;
     mergeEvents := t_mergeEvents acc;
     totalEvents := Z.of_nat (List.length events);
     memberActivity := memberActivityArray;
     dailyActivity := dailyActivityArray;
     eventDistribution :=
       List.filter (fun item => 0 <? snd item)
         [("Pushes", t_pushEvents acc); ("Pull Requests", t_pullRequestEvents acc);
          ("Merges/Reviews", t_mergeEvents acc)] |}.

End GitActivityAnalysis.

(** ** The rules as the specification words them

    Definitions that follow the specification's sentences, to compare with
    the definitions above. *)

Module Stated.

(** The score formula, with the denominators floored at 1. *)
Definition score (described total empty short : Z) (hasReadme : bool)
    (avgMessageLength : Z) : Z :=
  let floored := Z.max total 1 in
  JS.round
    (40 * JS.num described / JS.num floored
     + 30 * JS.num (total - empty - short) / JS.num floored
     + 20 * (if hasReadme then 1 else 0)
     + 10 * (if 20 <? avgMessageLength then 1 else 0))%Q.

(** The seven pattern buckets and their keywords, in precedence order. *)
Inductive Bucket := Fix | Feat | Refactor | Docs | Test | Style | Other.

Definition precedence : list (Bucket * list string) :=
  [ (Fix, ["fix"; "bug"; "patch"]);
    (Feat, ["feat"; "add"; "new"]);
    (Refactor, ["refactor"; "cleanup"; "reorganize"]);
    (Docs, ["doc"; "readme"; "comment"]);
    (Test, ["test"; "spec"]);
    (Style, ["style"; "format"; "lint"]) ].

(** The first group one of whose keywords occurs in [text], else [Other]. *)
Fixpoint firstMatch (groups : list (Bucket * list string)) (text : string) : Bucket :=
  match groups with
  | [] => Other
  | (b, keywords) :: rest =>
      if existsb (JS.includes text) keywords then b else firstMatch rest text
  end.

(** Case-insensitive classification of a trimmed message. *)
Definition classify (message : string) : Bucket :=
  firstMatch precedence (JS.toLowerCase (JS.trim message)).

Definition Bucket_eqb (a b : Bucket) : bool :=
  match a, b with
  | Fix, Fix | Feat, Feat | Refactor, Refactor | Docs, Docs
  | Test, Test | Style, Style | Other, Other => true
  | _, _ => false
  end.

Definition bucketCount (b : Bucket) (p : CommitQualityAnalysis.CommitPatterns) : Z :=
  match b with
  | Fix => CommitQualityAnalysis.fix_ p
  | Feat => CommitQualityAnalysis.feat p
  | Refactor => CommitQualityAnalysis.refactor p
  | Docs => CommitQualityAnalysis.docs p
  | Test => CommitQualityAnalysis.test p
  | Style => CommitQualityAnalysis.style p
  | Other => CommitQualityAnalysis.other p
  end.

(** The sum of the seven bucket counts. *)
Definition bucketTotal (p : CommitQualityAnalysis.CommitPatterns) : Z :=
  CommitQualityAnalysis.fix_ p + CommitQualityAnalysis.feat p
  + CommitQualityAnalysis.refactor p + CommitQualityAnalysis.docs p
  + CommitQualityAnalysis.test p + CommitQualityAnalysis.style p
  + CommitQualityAnalysis.other p.

(** A token is blank when trimming leaves nothing. *)
Definition blank (t : string) : bool := negb (JS.truthy (JS.trim t)).

(** How many of [messages] fall in bucket [b]. *)
Definition classified (b : Bucket) (messages : list string) : Z :=
  Z.of_nat (List.length (List.filter (fun m => Bucket_eqb (classify m) b) messages)).

End Stated.

(** ** Inputs of the worked scenarios *)

Module Scenario.

Definition newline : string := String "010"%char EmptyString.

(** A commit of the quality component with the given message. *)
Definition qualityCommit (message : string) : CommitQualityAnalysis.CommitData :=
  {| CommitQualityAnalysis.sha := "";
     CommitQualityAnalysis.message := message;
     CommitQualityAnalysis.author_name := "";
     CommitQualityAnalysis.author_date := 0 |}.

(** The three messages of the quality scenario. *)
Definition threeMessages : list CommitQualityAnalysis.CommitData :=
  [ qualityCommit "";
    qualityCommit "fix bug";
    qualityCommit ("Add new feature" ++ newline ++ newline ++ "Detailed body") ].

(** A fetched commit by [who], authored at instant [at_]. *)
Definition commit (who : string) (at_ : Z) (message : string) : CommitAnalytics.CommitData :=
  {| CommitAnalytics.sha := "";
     CommitAnalytics.commit_author_name := who;
     CommitAnalytics.commit_author_email := "";
     CommitAnalytics.commit_author_date := at_;
     CommitAnalytics.commit_message := message;
     CommitAnalytics.author := None |}.

(** Ten commits with empty messages, followed by [last]. *)
Definition tenThen (last : list CommitAnalytics.CommitData) : list CommitAnalytics.CommitData :=
  List.repeat (commit "ann" 0 "") 10 ++ last.

(** The two rows of the roster scenario. *)
Definition rowA : FileUpload.Row :=
  {| FileUpload.TeamName := Some (FileUpload.CString "A");
     FileUpload.GitHubURL := Some (FileUpload.CString "https://github.com/x/y") |}.

Definition rowB : FileUpload.Row :=
  {| FileUpload.TeamName := Some (FileUpload.CString "B");
     FileUpload.GitHubURL := Some (FileUpload.CString "") |}.

(** A row with a team name and no [GitHubURL] key. *)
Definition rowNoUrl : FileUpload.Row :=
  {| FileUpload.TeamName := Some (FileUpload.CString "C");
     FileUpload.GitHubURL := None |}.


End Scenario.

(** ** A URL parser for the examples

    [new URL(url).pathname] for locators of the shape
    [https://host/path], without query or fragment: the text from the
    first [/] after the host on, [/] when there is none; anything else
    counts as unparsable here. *)

Module ExampleUrl.

Fixpoint fromFirstSlash (s : string) : string :=
  match s with
  | EmptyString => "/"
  | String c s' => if Ascii.eqb c "/"%char then s else fromFirstSlash s'
  end.

Definition pathname (url : string) : option string :=
  if String.prefix "https://" url
  then match String.substring 8 (String.length url - 8) url with
       | EmptyString => None
       | rest => Some (fromFirstSlash rest)
       end
  else None.

End ExampleUrl.

(** ** Counting, for the statements about the aggregations *)

Module Counting.

Definition Kind_eqb (a b : GitActivityAnalysis.Kind) : bool :=
  match a, b with
  | GitActivityAnalysis.Push, GitActivityAnalysis.Push
  | GitActivityAnalysis.PullRequest, GitActivityAnalysis.PullRequest
  | GitActivityAnalysis.Merge, GitActivityAnalysis.Merge
  | GitActivityAnalysis.Ignored, GitActivityAnalysis.Ignored => true
  | _, _ => false
  end.

(** The counter of a day's activity that events of kind [k] feed. *)
Definition field (k : GitActivityAnalysis.Kind) (a : GitActivityAnalysis.Activity) : Z :=
  match k with
  | GitActivityAnalysis.Push => GitActivityAnalysis.pushes a
  | GitActivityAnalysis.PullRequest => GitActivityAnalysis.pulls a
  | GitActivityAnalysis.Merge => GitActivityAnalysis.merges a
  | GitActivityAnalysis.Ignored => 0
  end.





(** How often [name] occurs in [names]. *)
Definition occurrences (name : string) (names : list string) : Z :=
  Z.of_nat (List.length (List.filter (String.eqb name) names)).

(** The position at which [name] first occurs in [names] (their length
    when it does not occur). *)
Fixpoint firstSeen (name : string) (names : list string) : nat :=
  match names with
  | [] => 0%nat
  | n :: names' => if String.eqb name n then 0%nat else S (firstSeen name names')
  end.

(** The enumeration order of the keys of a counting object filled in the
    order of [names]: array indices first, ascending; then the other keys
    by first appearance. *)
Definition keyBefore (names : list string) (a b : string) : Prop :=
  match JS.arrayIndex a, JS.arrayIndex b with
  | Some m, Some n => (m < n)%N
  | Some _, None => True
  | None, Some _ => False
  | None, None => (firstSeen a names < firstSeen b names)%nat
  end.

(** The order of a descending stable sort by [key] of a list in which
    [before] holds from earlier to later elements. *)
Definition descendingThen {A} (key : A -> Z) (before : A -> A -> Prop) (a b : A) : Prop :=
  key b < key a \/ (key a = key b /\ before a b).

(** Creation order of the properties of an object filled in the order of
    [names], and their enumeration order. *)
Definition createdBefore {V} (names : list string) (a b : string * V) : Prop :=
  (firstSeen (fst a) names < firstSeen (fst b) names)%nat.

Definition enumeratedBefore {V} (names : list string) (a b : string * V) : Prop :=
  keyBefore names (fst a) (fst b).




End Counting.

(** ** The window of the trend scenario *)

Module TrendScenario.



End TrendScenario.

(** ** Commits of the ranking scenarios *)

Module RankingScenario.



(** Seven contributors; "10" and "9" and "zed" tie with two commits. *)
Definition sevenContributors : list CommitAnalytics.CommitData :=
  List.map (fun who => Scenario.commit who 0 "")
    ["zed"; "10"; "amy"; "9"; "zed"; "10"; "9"; "bob"; "amy"; "amy"; "cy"; "dee"].

End RankingScenario.

(** ** Invariants of the reductions *)

Module Invariant.

(** What the quality counters satisfy after [n] commits. *)
Definition countersWithin (n : Z) (acc : CommitQualityAnalysis.Counters) : Prop :=
  0 <= CommitQualityAnalysis.c_commitsWithDescription acc <= n /\
  0 <= CommitQualityAnalysis.c_emptyMessages acc /\
  0 <= CommitQualityAnalysis.c_shortMessages acc /\
  CommitQualityAnalysis.c_emptyMessages acc + CommitQualityAnalysis.c_shortMessages acc <= n /\
  0 <= CommitQualityAnalysis.c_totalMessageLength acc.

(** What the contributor-counting object satisfies after the commits of
    the contributors [pre], in that order. *)
Record Counted (pre : list string) (o : JS.Obj CommitAnalytics.ContributorData) : Prop := {
  counted_keys : forall k, In k (JS.ownKeys o) <-> In k pre /\ JS.inherited k = false;
  counted_count :
    forall k d, JS.ownGet k o = Some d ->
                CommitAnalytics.count d = Counting.occurrences k pre;
  counted_order :
    StronglySorted
      (fun a b => (Counting.firstSeen a pre < Counting.firstSeen b pre)%nat) (JS.ownKeys o);
  counted_NoDup : NoDup (JS.ownKeys o)
}.

End Invariant.

(** ** CommitQualityAnalysis.tsx: what the cards show *)

Module QualityView.

(** [Object.entries(metrics.commitPatterns)] of the literal
    [{ fix, feat, refactor, docs, test, style, other }]. *)
Definition patternEntries (p : CommitQualityAnalysis.CommitPatterns) : list (string * Z) :=
  JS.entries
    [ ("fix", CommitQualityAnalysis.fix_ p); ("feat", CommitQualityAnalysis.feat p);
      ("refactor", CommitQualityAnalysis.refactor p); ("docs", CommitQualityAnalysis.docs p);
      ("test", CommitQualityAnalysis.test p); ("style", CommitQualityAnalysis.style p);
      ("other", CommitQualityAnalysis.other p) ].

(** [Math.round((count / Math.max(metrics.totalCommits, 1)) * 100)] *)
Definition percentage (metrics : CommitQualityAnalysis.QualityMetrics) (count : Z) : Z :=
  JS.round
    (JS.num count / JS.num (JS.max (CommitQualityAnalysis.totalCommits metrics) 1) * 100).

(** The percentages of the pattern rows, in display order. *)
Definition percentages (metrics : CommitQualityAnalysis.QualityMetrics) : list Z :=
  List.map (fun row => percentage metrics (snd row))
    (patternEntries (CommitQualityAnalysis.commitPatterns metrics)).


(** A commit with its message rewritten by [f]. *)
Definition mapMessage (f : string -> string) (c : CommitQualityAnalysis.CommitData)
    : CommitQualityAnalysis.CommitData :=
  {| CommitQualityAnalysis.sha := CommitQualityAnalysis.sha c;
     CommitQualityAnalysis.message := f (CommitQualityAnalysis.message c);
     CommitQualityAnalysis.author_name := CommitQualityAnalysis.author_name c;
     CommitQualityAnalysis.author_date := CommitQualityAnalysis.author_date c |}.

(** [toUpperCase] on the letters A-Z only, to vary the case of a message. *)
Definition upperChar (c : ascii) : ascii :=
  let n := nat_of_ascii c in
  if (97 <=? n)%nat && (n <=? 122)%nat then ascii_of_nat (n - 32) else c.

(** A string with [f] applied to each code unit. *)
Fixpoint mapChars (f : ascii -> ascii) (s : string) : string :=
  match s with
  | EmptyString => EmptyString
  | String c s' => String (f c) (mapChars f s')
  end.

Definition upperAscii (s : string) : string := mapChars upperChar s.

End QualityView.

(** ** Further invariants of the reductions *)

Module Invariant2.

(** After [n] commits: an empty message is never a described one, and
    every empty message sits in the [other] bucket. *)
Definition emptiesApart (n : Z) (acc : CommitQualityAnalysis.Counters) : Prop :=
  CommitQualityAnalysis.c_commitsWithDescription acc
    + CommitQualityAnalysis.c_emptyMessages acc <= n /\
  CommitQualityAnalysis.c_emptyMessages acc
    <= CommitQualityAnalysis.other (CommitQualityAnalysis.c_commitPatterns acc) /\
  0 <= CommitQualityAnalysis.c_commitsWithDescription acc /\
  0 <= CommitQualityAnalysis.c_emptyMessages acc.

End Invariant2.

(** ** CommitAnalytics.tsx and the date-range picker: state, cards and lists *)

Module CommitAnalyticsView.






(** The title of a recent commit, [commit.commit.message.split('\n')[0]];
    [None] stands for [undefined]. *)
Definition titleLine (commit : CommitAnalytics.CommitData) : option string :=
  List.nth_error (JS.split "010"%char (CommitAnalytics.commit_message commit)) 0.

(** [commit.sha.substring(0, 7)] *)
Definition shortSha (commit : CommitAnalytics.CommitData) : string :=
  String.substring 0 7 (CommitAnalytics.sha commit).

(** *** The weekday histogram of [processCommitData] *)

Definition weekdays : list string := ["Mon"; "Tue"; "Wed"; "Thu"; "Fri"; "Sat"; "Sun"].

(** [d.toLocaleDateString('en-US', { weekday: 'short' })] in a zone whose
    clocks are [zone] milliseconds ahead of UTC; day 0 was a Thursday. *)
Definition weekdayName (zone t : Z) : string :=
  List.nth (Z.to_nat ((Time.isoDate (t + zone) + 3) mod 7)) weekdays "".

(** [acc[key] || 0] on a counting object whose values are positive and
    whose keys are not inherited ones. *)
Definition countAt (acc : JS.Obj Z) (key : string) : Z :=
  match JS.ownGet key acc with Some n => n | None => 0 end.

Definition countByWeekday (zone : Z) (acc : JS.Obj Z) (commit : CommitAnalytics.CommitData)
    : JS.Obj Z :=
  let dayOfWeek := weekdayName zone (CommitAnalytics.commit_author_date commit) in
  JS.set dayOfWeek (countAt acc dayOfWeek + 1) acc.

Definition dayOfWeekCounts (zone : Z) (commits : list CommitAnalytics.CommitData) : JS.Obj Z :=
  List.fold_left (countByWeekday zone) commits [].

(** [dailyActivity]: [{ day, commits }] for Mon..Sun. *)
Definition dailyActivity (zone : Z) (commits : list CommitAnalytics.CommitData)
    : list (string * Z) :=
  List.map (fun day => (day, countAt (dayOfWeekCounts zone commits) day)) weekdays.

(** How many of [commits] were authored on the weekday [day]. *)
Definition commitsOnWeekday (zone : Z) (day : string)
    (commits : list CommitAnalytics.CommitData) : Z :=
  Z.of_nat (List.length
    (List.filter
       (fun c => String.eqb (weekdayName zone (CommitAnalytics.commit_author_date c)) day)
       commits)).

(** *** [fetchCommitData] and what the component renders *)

Inductive FetchError :=
| InvalidUrl           (* 'Invalid GitHub URL' *)
| NotFoundOrPrivate    (* 404 *)
| InvalidToken         (* 401 *)
| RateLimited          (* 403 with X-RateLimit-Remaining: 0 *)
| Forbidden            (* 403 otherwise *)
| ApiError (status : Z)          (* `GitHub API error: ${response.status}` *)
| Failed (message : string).     (* a rejected request: its message *)

Record Response := {
  status : Z;
  rateLimitRemaining : option string;   (* the X-RateLimit-Remaining header *)
  body : list CommitAnalytics.CommitData
}.

(** How the request ends: rejected, or answered. *)
Inductive FetchResult :=
| Rejected (message : string)
| Responded (response : Response).

(** [response.ok]: a status from 200 to 299. *)
Definition ok (response : Response) : bool :=
  (200 <=? status response) && (status response <=? 299).


Record State := {
  analytics : option CommitAnalytics.AnalyticsData;
  loading : bool;
  error : option FetchError
}.




End CommitAnalyticsView.

(** ** Inputs of the further examples *)

Module ExtraScenario.



End ExtraScenario.

(** ** Counting events, for the statements about [processGitEvents] *)

Module ActivityCounting.

Definition isKind (k : GitActivityAnalysis.Kind) (e : GitActivityAnalysis.GitEvent) : bool :=
  Counting.Kind_eqb (GitActivityAnalysis.kindOf (GitActivityAnalysis.type e)) k.


(** How many of [events] are of kind [k] and by the actor [member]. *)
Definition eventsBy (member : string) (k : GitActivityAnalysis.Kind)
    (events : list GitActivityAnalysis.GitEvent) : Z :=
  Z.of_nat (List.length
    (List.filter
       (fun e => isKind k e && String.eqb (GitActivityAnalysis.actor_login e) member)
       events)).



(** What the member object satisfies after the events [pre]. *)
Record Tallied (pre : list GitActivityAnalysis.GitEvent)
    (o : JS.Obj GitActivityAnalysis.Member) : Prop := {
  tallied_keys :
    forall k, In k (JS.ownKeys o) <->
              In k (List.map GitActivityAnalysis.actor_login pre) /\ JS.inherited k = false;
  tallied_counts :
    forall k m kind,
      JS.ownGet k o = Some m -> kind <> GitActivityAnalysis.Ignored ->
      Counting.field kind (GitActivityAnalysis.member_activity m) = eventsBy k kind pre;
  tallied_NoDup : NoDup (JS.ownKeys o)
}.


Definition memberColumn (k : GitActivityAnalysis.Kind) (row : GitActivityAnalysis.MemberRow)
    : Z :=
  match k with
  | GitActivityAnalysis.Push => GitActivityAnalysis.member_pushes row
  | GitActivityAnalysis.PullRequest => GitActivityAnalysis.member_pulls row
  | GitActivityAnalysis.Merge => GitActivityAnalysis.member_merges row
  | GitActivityAnalysis.Ignored => 0
  end.

End ActivityCounting.

(** ** A session with the token manager

    The effect run on mount and the three controls of the component,
    each with the condition under which the component offers it. *)

Module TokenSession.
Import GitHubTokenManager.

(** The component before its first effect; [saved] is what an earlier
    visit left in [localStorage]. *)
Definition initial (saved : option string) : State :=
  {| token := ""; tokenStatus := none; github_token := saved; reported := None |}.

(** The [useEffect] run on mount. *)
Definition onMount (fetch : string -> FetchResult) : M unit :=
  fun s =>
    match github_token s with
    | Some savedToken =>
        if JS.truthy savedToken
        then (setToken savedToken ;; validateToken fetch savedToken) s
        else (tt, s)
    | None => (tt, s)
    end.

Definition handleTokenSubmit (fetch : string -> FetchResult) : M unit :=
  fun s => validateToken fetch (token s) s.

Definition TokenStatus_eqb (a b : TokenStatus) : bool :=
  match a, b with
  | none, none | valid, valid | invalid, invalid | checking, checking => true
  | _, _ => false
  end.

(** Typing into the input, pressing Validate (with the way the identity
    request then ends), pressing Clear. *)
Inductive Action :=
| Edit (value : string)
| Validate (result : FetchResult)
| Clear.

(** The Validate button is disabled when
    [!token.trim() || tokenStatus === 'checking']; the Clear button is
    rendered when [tokenStatus === 'valid']. *)
Definition offered (a : Action) (s : State) : bool :=
  match a with
  | Edit _ => true
  | Validate _ =>
      negb (negb (JS.truthy (JS.trim (token s))) || TokenStatus_eqb (tokenStatus s) checking)
  | Clear => TokenStatus_eqb (tokenStatus s) valid
  end.

Definition act (s : State) (a : Action) : State :=
  if offered a s then
    match a with
    | Edit value => run (setToken value) s
    | Validate result => run (handleTokenSubmit (fun _ => result)) s
    | Clear => run handleClearToken s
    end
  else s.

Definition session (saved : option string) (atMount : FetchResult) (actions : list Action)
    : State :=
  List.fold_left act actions (run (onMount (fun _ => atMount)) (initial saved)).

(** The parent's [githubToken]: [''] until [onTokenChange] is called. *)
Definition githubToken (s : State) : string := default "" (reported s).

(** [!githubToken && <GitHubSetupGuide />] *)
Definition showsSetupGuide (s : State) : bool := negb (JS.truthy (githubToken s)).

(** What holds of the component between two actions. *)
Definition Settled (saved : option string) (s : State) : Prop :=
  match tokenStatus s with
  | valid =>
      exists t, github_token s = Some t /\ reported s = Some t
                /\ JS.truthy (JS.trim t) = true
  | invalid => github_token s = None /\ reported s = Some ""
  | none =>
      (github_token s = None /\ (reported s = None \/ reported s = Some ""))
      \/ (github_token s = saved /\ reported s = None
          /\ exists t, saved = Some t /\ JS.truthy (JS.trim t) = false)
  | checking => False
  end.

End TokenSession.

(** ** pages/Index.tsx, with the upload and the team selector it renders *)

Module Index.

Record State := {
  teams : list FileUpload.Row;
  selectedTeam : option FileUpload.Row;
  error : option string;
  githubToken : string
}.

Definition initial : State :=
  {| teams := []; selectedTeam := None; error := None; githubToken := "" |}.

Definition handleDataLoaded (loadedTeams : list FileUpload.Row) (s : State) : State :=
  {| teams := loadedTeams; selectedTeam := None; error := None;
     githubToken := githubToken s |}.

Definition handleError (errorMessage : string) (s : State) : State :=
  {| teams := teams s; selectedTeam := selectedTeam s; error := Some errorMessage;
     githubToken := githubToken s |}.

Definition handleTeamSelect (team : FileUpload.Row) (s : State) : State :=
  {| teams := teams s; selectedTeam := Some team; error := None;
     githubToken := githubToken s |}.

Definition setGithubToken (value : string) (s : State) : State :=
  {| teams := teams s; selectedTeam := selectedTeam s; error := error s;
     githubToken := value |}.

(** [teams.length === 0 ? <upload screen> : <dashboard screen>] *)
Inductive Screen := UploadScreen | DashboardScreen.

Definition screen (s : State) : Screen :=
  match teams s with
  | [] => UploadScreen
  | _ => DashboardScreen
  end.

Definition quoted (s : string) : string :=
  String "034"%char s ++ String "034"%char EmptyString.

(** The messages of the errors [processExcelFile] throws itself. *)
Definition message (e : FileUpload.UploadError) : string :=
  match e with
  | FileUpload.EmptyFileError => "Excel file is empty"
  | FileUpload.SchemaError =>
      "Excel file must contain " ++ quoted "TeamName" ++ " and " ++ quoted "GitHubURL"
      ++ " columns"
  | FileUpload.NoValidRowsError => "No valid team data found in Excel file"
  end.

(** What reading a dropped file gives: rows, or a thrown value ([Some] the
    message of an [Error], [None] for anything else). *)
Inductive Parse :=
| Parsed (jsonData : list FileUpload.Row)
| Thrown (errorMessage : option string).

(** [processExcelFile] of FileUpload, with its two callbacks. *)
Definition processExcelFile (file : Parse) (s : State) : State :=
  match file with
  | Thrown errorMessage =>
      handleError (default "Failed to process Excel file" errorMessage) s
  | Parsed jsonData =>
      match FileUpload.processExcelFile jsonData with
      | inl e => handleError (message e) s
      | inr validTeams => handleDataLoaded validTeams s
      end
  end.

(** What can happen on the page: files are dropped on the upload
    ([acceptedFiles[0]] may be missing), a row of the team selector is
    clicked, the token manager reports a token. *)
Inductive Event :=
| Drop (file : option Parse)
| Click (index : nat)
| TokenChange (value : string).

(** An event reaches the page only through a component of the screen
    being shown. *)
Definition step (s : State) (e : Event) : State :=
  match e, screen s with
  | Drop (Some file), UploadScreen => processExcelFile file s
  | Click index, DashboardScreen =>
      match List.nth_error (teams s) index with
      | Some team => handleTeamSelect team s
      | None => s
      end
  | TokenChange value, DashboardScreen => setGithubToken value s
  | _, _ => s
  end.

Definition after (events : list Event) : State := List.fold_left step events initial.

(** [selectedTeam?.TeamName === team.TeamName], the condition under
    which the selector marks a row. *)
Definition strictEquals (a b : option FileUpload.Cell) : bool :=
  match a, b with
  | None, None => true
  | Some (FileUpload.CString x), Some (FileUpload.CString y) => String.eqb x y
  | Some (FileUpload.CNumber x), Some (FileUpload.CNumber y) => x =? y
  | Some (FileUpload.CBoolean x), Some (FileUpload.CBoolean y) => Bool.eqb x y
  | _, _ => false
  end.

Definition marked (selectedTeam : option FileUpload.Row) (team : FileUpload.Row) : bool :=
  strictEquals (selectedTeam ≫= FileUpload.TeamName) (FileUpload.TeamName team).

(** What holds of the page's state between two events. *)
Record Consistent (s : State) : Prop := {
  consistent_teams : Forall (fun team => FileUpload.validTeam team = true) (teams s);
  consistent_selected : forall team, selectedTeam s = Some team -> In team (teams s);
  consistent_error : error s <> None -> teams s = [];
  consistent_upload : teams s = [] -> selectedTeam s = None /\ githubToken s = ""
}.

End Index.

Module PageScenario.

Definition team (name url : string) : FileUpload.Row :=
  {| FileUpload.TeamName := Some (FileUpload.CString name);
     FileUpload.GitHubURL := Some (FileUpload.CString url) |}.

Definition roster : list FileUpload.Row :=
  [team "A" "https://github.com/x/y"; team "B" "https://github.com/x/z"].

Definition loaded : list Index.Event := [Index.Drop (Some (Index.Parsed roster))].

End PageScenario.

(** ** The contributor card and the ranking's share of the commits *)

Module RankingView.

(** [analytics.topContributors.length], the number on the Contributors
    card. *)
Definition contributorsCard (analytics : CommitAnalytics.AnalyticsData) : Z :=
  Z.of_nat (List.length (CommitAnalytics.topContributors analytics)).

(** The commits of the ranked contributors together. *)
Definition rankedCommits (analytics : CommitAnalytics.AnalyticsData) : Z :=
  fold_right Z.add 0
    (List.map CommitAnalytics.contributor_commits (CommitAnalytics.topContributors analytics)).

(** The distinct names among [names] that a plain object does not
    inherit. *)
Definition distinctCounted (names : list string) : list string :=
  List.nodup string_dec (List.filter (fun n => negb (JS.inherited n)) names).

End RankingView.

(** ** The shape of a repository path *)

Module LocatorShape.

(** [n] slashes. *)
Fixpoint slashes (n : nat) : string :=
  match n with
  | O => EmptyString
  | S n' => String "/"%char (slashes n')
  end.

(** A path segment: not empty, no slash in it. *)
Definition segment (s : string) : bool := JS.truthy s && negb (JS.hasChar "/"%char s).

(** What may follow the repository segment: nothing, or a slash and
    anything. *)
Definition tail (rest : string) : bool :=
  match rest with
  | EmptyString => true
  | String c _ => Ascii.eqb c "/"%char
  end.

(** The path of a repository page: owner and repository, separated and
    preceded by one or more slashes ([before] and [S between] of them). *)
Definition repositoryPath (before between : nat) (owner repo rest : string) : string :=
  slashes before ++ owner ++ slashes (S between) ++ repo ++ rest.

End LocatorShape.

Module LocatorScenario.

(** A stand-in for the platform parser: what follows the host of an
    [https://github.com] URL, up to a query or fragment. *)
Definition afterHost (url : string) : option string :=
  if String.prefix "https://github.com" url
  then Some (String.substring 18 (String.length url - 18) url)
  else None.

End LocatorScenario.

(** * Properties *)

(** ** Worked examples of the primitives *)

Example trim_ex : JS.trim "  fix bug " = "fix bug".
Proof. reflexivity. Qed.

Example split_ex : JS.split "/" "/x//y" = [""; "x"; ""; "y"].
Proof. reflexivity. Qed.

Example round_ex : JS.round (5 # 2) = 3 /\ JS.round (-5 # 2) = -2 /\ JS.round (7 # 3) = 2.
Proof. repeat split; reflexivity. Qed.

Example arrayIndex_ex :
  JS.arrayIndex "7" = Some 7%N /\ JS.arrayIndex "07" = None /\ JS.arrayIndex "" = None /\
  JS.arrayIndex "bob" = None /\ JS.arrayIndex "4294967295" = None /\ JS.arrayIndex "0" = Some 0%N.
Proof. vm_compute. repeat split; reflexivity. Qed.

Example entries_ex :
  JS.entries [("bob", 1); ("10", 2); ("al", 3); ("7", 4)] = [("7", 4); ("10", 2); ("bob", 1); ("al", 3)].
Proof. vm_compute. reflexivity. Qed.

Example classify_ex :
  Stated.classify "FIX the Feature" = Stated.Fix /\ Stated.classify "Add tests" = Stated.Feat /\
  Stated.classify "   " = Stated.Other /\ Stated.classify "Lint specs" = Stated.Test.
Proof. repeat split; reflexivity. Qed.

(** ** Commit quality: pattern buckets *)

Section QualityPatterns.
Import CommitQualityAnalysis.

(** The if/else-if chain adds one to the bucket of the first matching
    keyword group and leaves the other six alone. *)
Lemma categorize_firstMatch (lower : string) (p : CommitPatterns) (b : Stated.Bucket) :
  Stated.bucketCount b (categorize lower p) =
  Stated.bucketCount b p +
  (if Stated.Bucket_eqb (Stated.firstMatch Stated.precedence lower) b then 1 else 0).
Proof.
  unfold categorize. cbn [Stated.firstMatch Stated.precedence existsb].
  rewrite !orb_false_r, !orb_assoc.
  repeat match goal with
         | |- context [if ?c then _ else _] =>
             lazymatch c with
             | Stated.Bucket_eqb _ _ => fail
             | _ => destruct c
             end
         end;
  destruct b; cbn; lia.
Qed.

Lemma categorize_total (lower : string) (p : CommitPatterns) :
  Stated.bucketTotal (categorize lower p) = Stated.bucketTotal p + 1.
Proof.
  unfold categorize, Stated.bucketTotal.
  repeat match goal with
         | |- context [if ?c then _ else _] => destruct c
         end; cbn; lia.
Qed.

Lemma analyzeCommit_patterns (acc : Counters) (commit : CommitData) :
  c_commitPatterns (analyzeCommit acc commit) =
  categorize (JS.toLowerCase (JS.trim (message commit))) (c_commitPatterns acc).
Proof. reflexivity. Qed.

Lemma fold_patterns (commits : list CommitData) :
  forall (acc : Counters) (b : Stated.Bucket),
    Stated.bucketCount b (c_commitPatterns (fold_left analyzeCommit commits acc)) =
    Stated.bucketCount b (c_commitPatterns acc) + Stated.classified b (map message commits).
Proof.
  induction commits as [|c cs IH]; intros acc b.
  - unfold Stated.classified. cbn. lia.
  - cbn [fold_left map]. rewrite IH, analyzeCommit_patterns, categorize_firstMatch.
    unfold Stated.classified, Stated.classify. cbn [List.filter].
    destruct (Stated.Bucket_eqb _ b); cbn [List.length]; lia.
Qed.

Lemma fold_total (commits : list CommitData) :
  forall acc : Counters,
    Stated.bucketTotal (c_commitPatterns (fold_left analyzeCommit commits acc)) =
    Stated.bucketTotal (c_commitPatterns acc) + Z.of_nat (List.length commits).
Proof.
  induction commits as [|c cs IH]; intros acc.
  - cbn. lia.
  - cbn [fold_left List.length]. rewrite IH, analyzeCommit_patterns, categorize_total. lia.
Qed.

(** C3: every message lands in exactly one of the seven buckets, the one
    of the first keyword group (fix/bug/patch, feat/add/new,
    refactor/cleanup/reorganize, doc/readme/comment, test/spec,
    style/format/lint, else other) that occurs in the lower-cased message;
    each bucket counts the messages classified into it, and the seven
    counts add up to the number of commits. *)
Theorem C3_pattern_buckets :
  forall (hasReadme : bool) (readmeContent : string) (commits : list CommitData),
    let metrics := analyzeCommitQuality hasReadme readmeContent commits in
    (forall lower p b,
        Stated.bucketCount b (categorize lower p) =
        Stated.bucketCount b p +
        (if Stated.Bucket_eqb (Stated.firstMatch Stated.precedence lower) b then 1 else 0))
    /\ (forall b, Stated.bucketCount b (commitPatterns metrics) =
                  Stated.classified b (map message commits))
    /\ Stated.bucketTotal (commitPatterns metrics) = Z.of_nat (List.length commits)
    /\ totalCommits metrics = Z.of_nat (List.length commits).
Proof.
  intros hasReadme readmeContent commits metrics. repeat split.
  - apply categorize_firstMatch.
  - intros b. subst metrics. cbn [analyzeCommitQuality commitPatterns].
    rewrite fold_patterns. destruct b; reflexivity.
  - subst metrics. cbn [analyzeCommitQuality commitPatterns].
    rewrite fold_total. reflexivity.
Qed.

End QualityPatterns.

(** ** Commit quality: the score *)

Section QualityScore.
Import CommitQualityAnalysis.

Lemma analyzeCommit_within (n : Z) (acc : Counters) (commit : CommitData) :
  Invariant.countersWithin n acc -> Invariant.countersWithin (n + 1) (analyzeCommit acc commit).
Proof.
  unfold Invariant.countersWithin, analyzeCommit. cbn.
  intros (Hd & He & Hs & Hes & Hl).
  assert (0 <= JS.length (JS.trim (message commit))) by (unfold JS.length; lia).
  destruct (JS.truthy (JS.trim (message commit))); cbn;
    destruct (JS.length (JS.trim (message commit)) <? 10);
    destruct (1 <? Z.of_nat (List.length (nonBlankLines (JS.trim (message commit)))));
    lia.
Qed.

Lemma fold_within (commits : list CommitData) :
  forall (n : Z) (acc : Counters),
    Invariant.countersWithin n acc ->
    Invariant.countersWithin (n + Z.of_nat (List.length commits)) (fold_left analyzeCommit commits acc).
Proof.
  induction commits as [|c cs IH]; intros n acc Hacc; cbn [fold_left List.length].
  - replace (n + Z.of_nat 0) with n by lia. exact Hacc.
  - replace (n + Z.of_nat (S (List.length cs))) with ((n + 1) + Z.of_nat (List.length cs)) by lia.
    apply IH, analyzeCommit_within, Hacc.
Qed.

Lemma analyzeCommitQuality_within (hasReadme : bool) (readmeContent : string)
    (commits : list CommitData) :
  let m := analyzeCommitQuality hasReadme readmeContent commits in
  0 <= commitsWithDescription m <= totalCommits m /\
  0 <= emptyMessages m /\ 0 <= shortMessages m /\
  emptyMessages m + shortMessages m <= totalCommits m.
Proof.
  cbn.
  destruct (fold_within commits 0 initialCounters) as (Hd & He & Hs & Hes & _).
  { unfold Invariant.countersWithin. cbn. lia. }
  rewrite Z.add_0_l in *. auto.
Qed.

(** A part of a whole, over the whole floored at 1, lies between 0 and 1. *)
Lemma share_bounds (a t : Z) :
  0 <= a <= t ->
  (0 <= JS.num a / JS.num (JS.max t 1) <= 1)%Q.
Proof.
  intros [Ha Hat]. unfold JS.num, JS.max.
  assert (Hpos : (0 < inject_Z (Z.max t 1))%Q).
  { change 0%Q with (inject_Z 0). rewrite <- Zlt_Qlt. lia. }
  split.
  - apply Qle_shift_div_l; [exact Hpos|]. rewrite Qmult_0_l.
    change 0%Q with (inject_Z 0). rewrite <- Zle_Qle. exact Ha.
  - apply Qle_shift_div_r; [exact Hpos|]. rewrite Qmult_1_l.
    rewrite <- Zle_Qle. lia.
Qed.


Lemma round_bounds (x : Q) (lo hi : Z) :
  (inject_Z lo <= x <= inject_Z hi)%Q -> lo <= JS.round x <= hi.
Proof.
  intros [Hlo Hhi]. unfold JS.round. split.
  - rewrite <- (Qfloor_Z lo). apply Qfloor_resp_le. lra.
  - assert (Hhalf : Qfloor (inject_Z hi + (1 # 2)) = hi).
    { unfold Qfloor, inject_Z, Qplus. cbn [Qnum Qden].
      apply eq_sym, (Z.div_unique _ _ _ 1); lia. }
    rewrite <- Hhalf. apply Qfloor_resp_le. lra.
Qed.

Lemma rawScore_bounds (m : QualityMetrics) :
  0 <= commitsWithDescription m <= totalCommits m ->
  0 <= emptyMessages m -> 0 <= shortMessages m ->
  emptyMessages m + shortMessages m <= totalCommits m ->
  (0 <= rawScore m <= 100)%Q.
Proof.
  intros Hd He Hs Hes. unfold rawScore.
  pose proof (share_bounds (commitsWithDescription m) (totalCommits m) Hd) as H1.
  assert (Hn : 0 <= totalCommits m - emptyMessages m - shortMessages m <= totalCommits m) by lia.
  pose proof (share_bounds _ (totalCommits m) Hn) as H2.
  destruct (hasReadme m), (20 <? averageMessageLength m); lra.
Qed.



End QualityScore.

(** The effect analyses nothing for an empty commit list: the metrics
    state keeps its previous value, and a freshly mounted component
    shows no score. *)
Lemma effect_skips_empty (pathname : string -> option string) (githubUrl : string)
    (previous : option CommitQualityAnalysis.QualityMetrics)
    (readme : bool) (readmeContent : string) :
  CommitQualityAnalysis.metricsAfterEffect pathname githubUrl previous readme readmeContent []
    = previous
  /\ CommitQualityAnalysis.renderedScore
       (CommitQualityAnalysis.metricsAfterEffect pathname githubUrl None readme readmeContent [])
     = None.
Proof. split; reflexivity. Qed.

(** Whatever score a freshly mounted component shows lies between 0 and
    100. *)
Lemma rendered_score_range (pathname : string -> option string) (githubUrl : string)
    (readme : bool) (readmeContent : string)
    (commits : list CommitQualityAnalysis.CommitData) (score : Z) :
  CommitQualityAnalysis.renderedScore
    (CommitQualityAnalysis.metricsAfterEffect pathname githubUrl None readme readmeContent commits)
    = Some score ->
  0 <= score <= 100.
Proof.
  unfold CommitQualityAnalysis.metricsAfterEffect.
  destruct (0 <? Z.of_nat (List.length commits)); [|discriminate].
  destruct (GitHubUrl.extractRepoInfo pathname githubUrl); [discriminate|].
  unfold CommitQualityAnalysis.renderedScore. cbn [option_map]. intros [= <-].
  destruct (analyzeCommitQuality_within readme readmeContent commits) as (Hd & He & Hs & Hes).
  apply (round_bounds _ 0 100), rawScore_bounds; assumption.
Qed.

(** ** Commit quality: the three-message scenario *)

(** C8, as stated, fails: "fix bug" has seven characters, so it is a short
    message and the short count is not 0. *)
Lemma C8_short_count_not_zero :
  CommitQualityAnalysis.shortMessages
    (CommitQualityAnalysis.analyzeCommitQuality false "" Scenario.threeMessages) <> 0.
Proof. vm_compute. discriminate. Qed.

(** C8, amended: for the three messages and no README the analysis counts
    empty = 1, short = 1, described = 1, the patterns fix = 1, feat = 1 and
    other = 1, an average length of 12, and the score is the stated formula
    at these values, 23. *)
Theorem C8_three_messages :
  let m := CommitQualityAnalysis.analyzeCommitQuality false "" Scenario.threeMessages in
  let p := CommitQualityAnalysis.commitPatterns m in
  CommitQualityAnalysis.emptyMessages m = 1
  /\ CommitQualityAnalysis.shortMessages m = 1
  /\ CommitQualityAnalysis.commitsWithDescription m = 1
  /\ CommitQualityAnalysis.fix_ p = 1
  /\ CommitQualityAnalysis.feat p = 1
  /\ CommitQualityAnalysis.other p = 1
  /\ CommitQualityAnalysis.averageMessageLength m = 12
  /\ CommitQualityAnalysis.qualityScore m = Stated.score 1 3 1 1 false 12
  /\ CommitQualityAnalysis.qualityScore m = 23.
Proof. vm_compute. repeat split; reflexivity. Qed.

(** ** Commit quality runs on the recent-commits slice *)

Section QualitySlice.
Import CommitAnalytics.

Lemma qualityOfFetch_slice (now : Z) (dateRange : option DateRange) (readme : bool)
    (readmeContent : string) (commits : list CommitData) :
  qualityOfFetch now dateRange readme readmeContent commits =
  CommitQualityAnalysis.analyzeCommitQuality readme readmeContent
    (map asQualityCommit (firstn 10 commits)).
Proof. reflexivity. Qed.

(** C4: the quality metrics of a fetch are those of its first ten commits;
    two fetches that agree on their first ten commits get the same metrics
    and the same score, and the analysed total never exceeds ten. *)
Theorem C4_quality_reads_first_ten :
  forall (now : Z) (dateRange : option DateRange) (readme : bool) (readmeContent : string)
         (commits commits' : list CommitData),
    firstn 10 commits = firstn 10 commits' ->
    qualityOfFetch now dateRange readme readmeContent commits =
      CommitQualityAnalysis.analyzeCommitQuality readme readmeContent
        (map asQualityCommit (firstn 10 commits))
    /\ qualityOfFetch now dateRange readme readmeContent commits =
       qualityOfFetch now dateRange readme readmeContent commits'
    /\ CommitQualityAnalysis.qualityScore
         (qualityOfFetch now dateRange readme readmeContent commits) =
       CommitQualityAnalysis.qualityScore
         (qualityOfFetch now dateRange readme readmeContent commits')
    /\ CommitQualityAnalysis.totalCommits
         (qualityOfFetch now dateRange readme readmeContent commits) <= 10.
Proof.
  intros now dateRange readme readmeContent commits commits' Hsame.
  rewrite !qualityOfFetch_slice, Hsame.
  repeat split.
  cbn [CommitQualityAnalysis.analyzeCommitQuality CommitQualityAnalysis.totalCommits].
  rewrite length_map.
  pose proof (firstn_le_length 10 commits'). lia.
Qed.

(** Eleven commits against twelve with the same first ten: a long,
    keyword-laden eleventh message changes nothing. *)
Lemma C4_quality_reads_first_ten_witness :
  let commits := Scenario.tenThen [Scenario.commit "bob" 0 "fix: a long message with a body"] in
  let commits' := Scenario.tenThen [Scenario.commit "eve" 0 "x"; Scenario.commit "eve" 0 "y"] in
  firstn 10 commits = firstn 10 commits'
  /\ CommitQualityAnalysis.qualityScore (qualityOfFetch 0 None true "" commits) =
     CommitQualityAnalysis.qualityScore (qualityOfFetch 0 None true "" commits').
Proof.
  split; [reflexivity|].
  apply (C4_quality_reads_first_ten 0 None true ""
           (Scenario.tenThen [Scenario.commit "bob" 0 "fix: a long message with a body"])
           (Scenario.tenThen [Scenario.commit "eve" 0 "x"; Scenario.commit "eve" 0 "y"])).
  reflexivity.
Defined.

End QualitySlice.

(** ** Roster loading *)

Section Roster.
Import FileUpload.

Lemma validTeam_nonEmptyStrings (team : Row) :
  validTeam team = true <->
  exists n u, TeamName team = Some (CString n) /\ GitHubURL team = Some (CString u)
              /\ n <> "" /\ u <> "".
Proof.
  unfold validTeam. destruct team as [[[n|n|b]|] [[u|u|b']|]]; cbn;
    try (split; [intros H; repeat (apply andb_prop in H as [H ?]); try discriminate
                |intros (n0 & u0 & H1 & H2 & _); discriminate]);
    try (rewrite ?andb_false_r; split; [discriminate|intros (n0 & u0 & H1 & H2 & _); discriminate]).
  split.
  - intros H. exists n, u. repeat split; intros ->; cbn in H; try discriminate.
    destruct n; discriminate.
  - intros (n0 & u0 & [= <-] & [= <-] & Hn & Hu).
    destruct n; [congruence|]. destruct u; [congruence|]. reflexivity.
Qed.

(** C5, as stated, fails twice.  A row whose URL is the empty string has
    both fields present as strings, yet the loader drops it (as the
    scenario of the claim itself expects); and a first row that lacks only
    one of the two fields already makes the loader fail with
    [SchemaError]. *)
Lemma C5_stated_rule_differs :
  processExcelFile [Scenario.rowA; Scenario.rowB] = inr [Scenario.rowA]
  /\ rosterLoaderAsStated [Scenario.rowA; Scenario.rowB] = inr [Scenario.rowA; Scenario.rowB]
  /\ processExcelFile [Scenario.rowNoUrl; Scenario.rowA] = inl SchemaError
  /\ rosterLoaderAsStated [Scenario.rowNoUrl; Scenario.rowA] = inr [Scenario.rowA].
Proof. repeat split; reflexivity. Qed.

(** C5, amended: the loader fails with [EmptyFileError] exactly on zero
    rows; with [SchemaError] exactly when the first row lacks [TeamName]
    or lacks [GitHubURL]; otherwise it keeps, in row order, exactly the
    rows whose two fields are non-empty strings, and fails with
    [NoValidRowsError] exactly when no row is kept; the two-row scenario
    yields the single team A. *)
Theorem C5_roster_loader :
  forall rows : list Row,
    (processExcelFile rows = inl EmptyFileError <-> rows = [])
    /\ (processExcelFile rows = inl SchemaError <->
        exists first rest, rows = first :: rest /\
                           (TeamName first = None \/ GitHubURL first = None))
    /\ (processExcelFile rows = inl NoValidRowsError <->
        exists first rest, rows = first :: rest /\
                           TeamName first <> None /\ GitHubURL first <> None /\
                           List.filter validTeam rows = [])
    /\ (forall teams, processExcelFile rows = inr teams <->
        exists first rest, rows = first :: rest /\
                           TeamName first <> None /\ GitHubURL first <> None /\
                           teams = List.filter validTeam rows /\ teams <> [])
    /\ (forall team, validTeam team = true <->
        exists n u, TeamName team = Some (CString n) /\ GitHubURL team = Some (CString u)
                    /\ n <> "" /\ u <> "")
    /\ processExcelFile [Scenario.rowA; Scenario.rowB] = inr [Scenario.rowA].
Proof.
  intros rows.
  assert (Hkeys : forall first : Row,
             negb (hasKey (TeamName first)) || negb (hasKey (GitHubURL first)) = true <->
             (TeamName first = None \/ GitHubURL first = None)).
  { intros [[t|] [u|]]; cbn; intuition congruence. }
  split; [|split; [|split; [|split; [|split]]]].
  - destruct rows as [|first rest]; cbn [processExcelFile]; [tauto|].
    split; [|discriminate].
    destruct (negb (hasKey (TeamName first)) || negb (hasKey (GitHubURL first)));
      [discriminate|].
    destruct (List.filter validTeam (first :: rest)); discriminate.
  - destruct rows as [|first rest]; cbn [processExcelFile].
    { split; [discriminate|intros (f0 & r0 & H & _); discriminate]. }
    specialize (Hkeys first).
    destruct (negb (hasKey (TeamName first)) || negb (hasKey (GitHubURL first))).
    + split; [|reflexivity]. intros _. exists first, rest. split; [reflexivity|].
      apply Hkeys. reflexivity.
    + split.
      * destruct (List.filter validTeam (first :: rest)); discriminate.
      * intros (f0 & r0 & [= <- <-] & H). apply Hkeys in H. discriminate.
  - destruct rows as [|first rest]; cbn [processExcelFile].
    { split; [discriminate|intros (f0 & r0 & H & _); discriminate]. }
    specialize (Hkeys first).
    destruct (negb (hasKey (TeamName first)) || negb (hasKey (GitHubURL first))).
    + split; [discriminate|].
      intros (f0 & r0 & [= <- <-] & Ht & Hu & _).
      destruct Hkeys as [Hk _]. destruct (Hk eq_refl); contradiction.
    + destruct (List.filter validTeam (first :: rest)) as [|kept1 kept] eqn:Hf.
      * split; [|reflexivity]. intros _. exists first, rest.
        repeat split; try assumption; intros Hn;
          destruct Hkeys as [_ Hk]; (discriminate Hk; tauto).
      * split; [discriminate|]. intros (f0 & r0 & _ & _ & _ & H). discriminate.
  - intros teams. destruct rows as [|first rest]; cbn [processExcelFile].
    { split; [discriminate|intros (f0 & r0 & H & _); discriminate]. }
    specialize (Hkeys first).
    destruct (negb (hasKey (TeamName first)) || negb (hasKey (GitHubURL first))).
    + split; [discriminate|].
      intros (f0 & r0 & [= <- <-] & Ht & Hu & _).
      destruct Hkeys as [Hk _]. destruct (Hk eq_refl); contradiction.
    + destruct (List.filter validTeam (first :: rest)) as [|kept1 kept] eqn:Hf.
      * split; [discriminate|]. intros (f0 & r0 & _ & _ & _ & -> & H). congruence.
      * split.
        -- intros [= <-]. exists first, rest.
           repeat split; try discriminate; intros Hn;
             destruct Hkeys as [_ Hk]; (discriminate Hk; tauto).
        -- intros (f0 & r0 & _ & _ & _ & -> & _). reflexivity.
  - apply validTeam_nonEmptyStrings.
  - reflexivity.
Qed.

End Roster.

(** ** Repository locators *)

Section SplitFacts.

Lemma split_not_nil (sep : ascii) (s : string) : JS.split sep s <> [].
Proof.
  destruct s as [|c s]; cbn [JS.split]; [discriminate|].
  destruct (Ascii.eqb c sep); [discriminate|].
  destruct (JS.split sep s); discriminate.
Qed.

(** Splitting loses nothing: the segments joined by the separator give
    the string back. *)
Lemma split_concat (sep : ascii) (s : string) :
  String.concat (String sep EmptyString) (JS.split sep s) = s.
Proof.
  induction s as [|c s IH]; [reflexivity|].
  cbn [JS.split]. pose proof (split_not_nil sep s) as Hnil.
  destruct (JS.split sep s) as [|w ws]; [contradiction|].
  destruct (Ascii.eqb_spec c sep) as [->|Hne].
  - cbn [String.concat]. cbn [String.concat] in IH. rewrite IH. reflexivity.
  - rewrite <- IH. destruct ws; reflexivity.
Qed.

Lemma split_no_separator (sep : ascii) (s : string) :
  Forall (fun segment => JS.hasChar sep segment = false) (JS.split sep s).
Proof.
  induction s as [|c s IH]; [repeat constructor|].
  cbn [JS.split]. pose proof (split_not_nil sep s) as Hnil.
  destruct (Ascii.eqb_spec c sep) as [->|Hne].
  - constructor; [reflexivity|exact IH].
  - destruct (JS.split sep s) as [|w ws]; [contradiction|].
    inversion IH as [|? ? Hw Hws]; subst. constructor; [|exact Hws].
    cbn. apply Ascii.eqb_neq in Hne. rewrite Hne. exact Hw.
Qed.

Lemma pathParts_segments (path : string) :
  Forall (fun part => part <> "" /\ JS.hasChar "/" part = false)
    (GitHubUrl.pathParts path).
Proof.
  unfold GitHubUrl.pathParts.
  pose proof (split_no_separator "/" path) as H.
  induction H as [|w ws Hw _ IH]; cbn [List.filter]; [constructor|].
  destruct w; cbn [JS.truthy]; [exact IH|].
  constructor; [split; [discriminate|exact Hw]|exact IH].
Qed.

End SplitFacts.

Section LocatorParser.
Import GitHubUrl.
Variable pathname : string -> option string.

(** C6: [extractRepoInfo] is a function of the URL alone; it fails with
    [InvalidUrlError] exactly when the URL does not parse or its path has
    fewer than two non-empty segments between slashes, and otherwise
    returns the first such segment as owner and the second as
    repository. *)
Theorem C6_locator_parser :
  forall url : string,
    (extractRepoInfo pathname url = inl InvalidUrlError <->
       pathname url = None \/
       exists path, pathname url = Some path /\ (List.length (pathParts path) < 2)%nat)
    /\ (forall info, extractRepoInfo pathname url = inr info <->
          exists path, pathname url = Some path /\ (2 <= List.length (pathParts path))%nat /\
                       nth_error (pathParts path) 0 = Some (owner info) /\
                       nth_error (pathParts path) 1 = Some (repo info))
    /\ (forall path, pathParts path = List.filter JS.truthy (JS.split "/" path)
                     /\ String.concat "/" (JS.split "/" path) = path
                     /\ Forall (fun part => part <> "" /\ JS.hasChar "/" part = false)
                          (pathParts path))
    /\ (forall r1 r2, r1 = extractRepoInfo pathname url ->
                      r2 = extractRepoInfo pathname url -> r1 = r2).
Proof.
  intros url. unfold extractRepoInfo.
  split; [|split; [|split]].
  - destruct (pathname url) as [path|]; [|intuition].
    destruct (pathParts path) as [|o [|r rest]] eqn:Hparts; cbn [List.length].
    + split; [|reflexivity]. intros _. right. exists path. rewrite Hparts. cbn. split; [reflexivity|lia].
    + split; [|reflexivity]. intros _. right. exists path. rewrite Hparts. cbn. split; [reflexivity|lia].
    + split; [discriminate|]. intros [H|(p & [= <-] & H)]; [discriminate|].
      rewrite Hparts in H. cbn in H. lia.
  - intros info. destruct (pathname url) as [path|].
    + destruct (pathParts path) as [|o [|r rest]] eqn:Hparts.
      * split; [discriminate|]. intros (p & [= <-] & H & _). rewrite Hparts in H. cbn in H. lia.
      * split; [discriminate|]. intros (p & [= <-] & H & _). rewrite Hparts in H. cbn in H. lia.
      * split.
        -- intros [= <-]. exists path. rewrite Hparts. cbn. repeat split. lia.
        -- intros (p & [= <-] & _ & Ho & Hr). rewrite Hparts in Ho, Hr. cbn in Ho, Hr.
           destruct info as [o' r']. cbn in Ho, Hr. congruence.
    + split; [discriminate|]. intros (p & H & _). discriminate.
  - intros path. split; [reflexivity|]. split; [apply split_concat|apply pathParts_segments].
  - intros r1 r2 -> ->. reflexivity.
Qed.

End LocatorParser.

Example extractRepoInfo_ex :
  GitHubUrl.extractRepoInfo ExampleUrl.pathname "https://github.com/x/y" =
    inr {| GitHubUrl.owner := "x"; GitHubUrl.repo := "y" |}
  /\ GitHubUrl.extractRepoInfo ExampleUrl.pathname "https://github.com//x//y/tree/main" =
    inr {| GitHubUrl.owner := "x"; GitHubUrl.repo := "y" |}
  /\ GitHubUrl.extractRepoInfo ExampleUrl.pathname "https://github.com/x/" =
    inl GitHubUrl.InvalidUrlError
  /\ GitHubUrl.extractRepoInfo ExampleUrl.pathname "github.com/x/y" =
    inl GitHubUrl.InvalidUrlError.
Proof. repeat split; reflexivity. Qed.

(** ** Credential validation *)

Section Credential.
Import GitHubTokenManager.



(** Validating a revoked token: whatever was stored, nothing is
    afterwards, and [clear] does the same unconditionally. *)
Lemma revoked_token_not_persisted (s : State) (t : string) :
  Stated.blank t = false ->
  github_token (run (validateToken (fun _ => Response false) t) s) = None
  /\ tokenStatus (run (validateToken (fun _ => Response false) t) s) = invalid
  /\ github_token (run handleClearToken s) = None
  /\ tokenStatus (run handleClearToken s) = none.
Proof.
  intros Hb. unfold validateToken, run. unfold Stated.blank in Hb. rewrite Hb.
  repeat split.
Qed.

End Credential.

(** ** The trailing thirty days *)

Section TrailingDays.





End TrailingDays.

(** ** Event aggregation: the daily histogram *)

Section EventHistogram.
Import GitActivityAnalysis.


Lemma field_bump (k k' : Kind) (a : Activity) :
  k <> Ignored ->
  Counting.field k (bump k' a) = Counting.field k a + (if Counting.Kind_eqb k' k then 1 else 0).
Proof. intros Hk. destruct k, k'; cbn; try lia; congruence. Qed.




End EventHistogram.

(** ** Commit aggregation: the trend series *)

Section Trend.
Import CommitAnalytics.












End Trend.

(** ** Plain objects: own properties *)

Section ObjectFacts.
Context {V : Type}.
Implicit Types (o : JS.Obj V) (k : string) (v : V).

Lemma ownGet_None o k : JS.ownGet k o = None <-> ~ In k (JS.ownKeys o).
Proof.
  induction o as [|[k' v'] o IH]; cbn; [tauto|].
  destruct (String.eqb_spec k k') as [->|Hne].
  - split; [discriminate|]. intros H. exfalso. apply H. left. reflexivity.
  - rewrite IH. split; [intros H [Heq|Hin]; [congruence|tauto]|tauto].
Qed.

Lemma ownGet_Some_In o k v : JS.ownGet k o = Some v -> In (k, v) o.
Proof.
  induction o as [|[k' v'] o IH]; cbn; [discriminate|].
  destruct (String.eqb_spec k k') as [->|Hne].
  - intros [= ->]. left. reflexivity.
  - intros H. right. apply IH, H.
Qed.

Lemma In_ownKeys o k v : In (k, v) o -> In k (JS.ownKeys o).
Proof. intros H. apply (in_map fst) in H. exact H. Qed.

Lemma In_ownGet o k v : NoDup (JS.ownKeys o) -> In (k, v) o -> JS.ownGet k o = Some v.
Proof.
  induction o as [|[k' v'] o IH]; cbn; [tauto|].
  intros Hnd [[= -> ->]|Hin].
  - rewrite String.eqb_refl. reflexivity.
  - apply NoDup_cons in Hnd as [Hk' Hnd].
    destruct (String.eqb_spec k k') as [->|Hne].
    + exfalso. apply Hk', list_elem_of_In, (In_ownKeys o _ v), Hin.
    + apply IH; assumption.
Qed.

Lemma set_present o k v : In k (JS.ownKeys o) -> JS.ownKeys (JS.set k v o) = JS.ownKeys o.
Proof.
  induction o as [|[k' v'] o IH]; cbn; [tauto|].
  intros Hin. destruct (String.eqb_spec k k') as [->|Hne]; [reflexivity|].
  cbn. f_equal. apply IH. destruct Hin; [congruence|assumption].
Qed.

Lemma set_absent o k v : ~ In k (JS.ownKeys o) -> JS.set k v o = (o ++ [(k, v)])%list.
Proof.
  induction o as [|[k' v'] o IH]; cbn; [reflexivity|].
  intros Hin. destruct (String.eqb_spec k k') as [->|Hne]; [tauto|].
  f_equal. apply IH. tauto.
Qed.

Lemma ownGet_set o k k' v :
  JS.ownGet k' (JS.set k v o) = if String.eqb k' k then Some v else JS.ownGet k' o.
Proof.
  induction o as [|[k0 v0] o IH]; cbn.
  - destruct (String.eqb k' k); reflexivity.
  - destruct (String.eqb_spec k k0) as [->|Hne]; cbn.
    + destruct (String.eqb k' k0); reflexivity.
    + rewrite IH. destruct (String.eqb_spec k' k0) as [->|Hne'].
      * destruct (String.eqb_spec k0 k); [congruence|reflexivity].
      * reflexivity.
Qed.

End ObjectFacts.

(** ** The stable descending sort *)

Section StableSort.
Context {A : Type} (key : A -> Z) (compare : A -> A -> Z).
Hypothesis compare_key : forall a b, compare a b = key b - key a.

Lemma insert_Permutation (x : A) (l : list A) : Permutation (JS.insert compare x l) (x :: l).
Proof.
  induction l as [|y l IH]; cbn; [reflexivity|].
  destruct (0 <? compare x y); [|reflexivity].
  rewrite IH. apply perm_swap.
Qed.

Lemma sort_Permutation (l : list A) : Permutation (JS.sort compare l) l.
Proof.
  induction l as [|x l IH]; cbn; [reflexivity|].
  fold (JS.sort compare l). rewrite insert_Permutation, IH. reflexivity.
Qed.

Lemma sort_In (l : list A) (x : A) : In x (JS.sort compare l) <-> In x l.
Proof.
  split; apply Permutation_in; [|symmetry]; apply sort_Permutation.
Qed.

Variable before : A -> A -> Prop.

(** Inserting an element that stood before all of a sorted list keeps it
    sorted, equal keys in their former order. *)
Lemma insert_sorted (x : A) (l : list A) :
  StronglySorted (Counting.descendingThen key before) l ->
  (forall y, In y l -> before x y) ->
  StronglySorted (Counting.descendingThen key before) (JS.insert compare x l).
Proof.
  induction 1 as [|y l Hl IH Hy]; intros Hx; cbn.
  - repeat constructor.
  - rewrite compare_key. destruct (Z.ltb_spec 0 (key y - key x)) as [Hlt|Hge].
    + constructor.
      * apply IH. intros z Hz. apply Hx. right. exact Hz.
      * apply Forall_forall. intros z Hz.
        apply list_elem_of_In, (Permutation_in _ (insert_Permutation x l)) in Hz.
        destruct Hz as [<-|Hz].
        -- left. lia.
        -- rewrite Forall_forall in Hy. apply Hy, list_elem_of_In, Hz.
    + constructor; [constructor; assumption|].
      assert (Hxy : Counting.descendingThen key before x y).
      { destruct (Z.eq_dec (key x) (key y)) as [Heq|Hne].
        - right. split; [exact Heq|]. apply Hx. left. reflexivity.
        - left. lia. }
      constructor; [exact Hxy|].
      apply Forall_forall. intros z Hz.
      rewrite Forall_forall in Hy. specialize (Hy z Hz).
      unfold Counting.descendingThen in *.
      destruct (Z.eq_dec (key x) (key z)) as [Heq|Hne].
      * right. split; [exact Heq|]. apply Hx. right. apply list_elem_of_In, Hz.
      * left. lia.
Qed.

Lemma sort_stable (l : list A) :
  StronglySorted before l ->
  StronglySorted (Counting.descendingThen key before) (JS.sort compare l).
Proof.
  induction 1 as [|x l Hl IH Hx]; cbn; [constructor|].
  fold (JS.sort compare l). apply insert_sorted; [exact IH|].
  intros y Hy. apply (proj1 (sort_In l y)) in Hy.
  rewrite Forall_forall in Hx. apply Hx, list_elem_of_In, Hy.
Qed.

End StableSort.

(** ** The enumeration order of [Object.entries] *)

Section SortedLists.
Context {A : Type}.

Lemma StronglySorted_filter (R : A -> A -> Prop) (f : A -> bool) (l : list A) :
  StronglySorted R l -> StronglySorted R (List.filter f l).
Proof.
  induction 1 as [|x l Hl IH Hx]; cbn; [constructor|].
  destruct (f x); [|exact IH].
  constructor; [exact IH|].
  apply Forall_forall. intros y Hy. rewrite Forall_forall in Hx.
  apply Hx, list_elem_of_In. apply list_elem_of_In, filter_In in Hy. tauto.
Qed.

Lemma StronglySorted_firstn (R : A -> A -> Prop) (n : nat) (l : list A) :
  StronglySorted R l -> StronglySorted R (firstn n l).
Proof.
  intros H. rewrite <- (firstn_skipn n l) in H.
  apply StronglySorted_app_1_l in H. exact H.
Qed.

(** One relation may replace another on the elements of the list. *)
Lemma StronglySorted_within (R R' : A -> A -> Prop) (P : A -> Prop) (l : list A) :
  (forall a b, P a -> P b -> R a b -> R' a b) ->
  Forall P l -> StronglySorted R l -> StronglySorted R' l.
Proof.
  intros Himpl HP H. induction H as [|x l Hl IH Hx]; [constructor|].
  apply Forall_cons in HP as [Px HP].
  constructor; [apply IH, HP|].
  rewrite Forall_forall in *. intros y Hy. apply Himpl; auto.
Qed.


Lemma filter_complement_Permutation (f : A -> bool) (l : list A) :
  Permutation (List.filter f l ++ List.filter (fun x => negb (f x)) l) l.
Proof.
  induction l as [|x l IH]; cbn; [reflexivity|].
  destruct (f x); cbn.
  - constructor. exact IH.
  - rewrite <- Permutation_middle. constructor. exact IH.
Qed.

End SortedLists.

Section EntriesOrder.
Context {V : Type} (names : list string).

Lemma arrayIndex_numeral (k : string) (n : N) :
  JS.arrayIndex k = Some n -> k = NilZero.string_of_uint (N.to_uint n).
Proof.
  unfold JS.arrayIndex. destruct (NilZero.uint_of_string k) as [u|]; [|discriminate].
  destruct (String.eqb_spec (NilZero.string_of_uint (N.to_uint (N.of_uint u))) k) as [Heq|];
    [|discriminate].
  destruct (N.of_uint u <=? 4294967294)%N; [|discriminate].
  intros [= <-]. symmetry. exact Heq.
Qed.

Lemma arrayIndex_inj (a b : string) (n : N) :
  JS.arrayIndex a = Some n -> JS.arrayIndex b = Some n -> a = b.
Proof.
  intros Ha Hb. apply arrayIndex_numeral in Ha, Hb. congruence.
Qed.

Lemma entries_Permutation (o : JS.Obj V) : Permutation (JS.entries o) o.
Proof.
  unfold JS.entries.
  rewrite sort_Permutation. apply filter_complement_Permutation.
Qed.

Lemma entries_In (o : JS.Obj V) (e : string * V) : In e (JS.entries o) <-> In e o.
Proof.
  split; apply Permutation_in; [|symmetry]; apply entries_Permutation.
Qed.

(** [Object.entries] of an object whose keys were created in the order of
    [names] lists them in the enumeration order. *)
Lemma entries_enumerated (o : JS.Obj V) :
  StronglySorted (Counting.createdBefore names) o -> StronglySorted (Counting.enumeratedBefore names) (JS.entries o).
Proof.
  intros Ho. unfold JS.entries. apply StronglySorted_app_2.
  - intros a b Ha Hb.
    apply list_elem_of_In in Ha, Hb.
    apply sort_In in Ha.
    apply filter_In in Ha as [_ Ha]. apply filter_In in Hb as [_ Hb].
    unfold Counting.enumeratedBefore, Counting.keyBefore, JS.isArrayIndex in *.
    destruct (JS.arrayIndex (fst a)); [|discriminate].
    destruct (JS.arrayIndex (fst b)); [discriminate|]. exact I.
  - apply (StronglySorted_within
             (Counting.descendingThen (fun e => - Z.of_N (JS.indexOf (fst e))) (Counting.createdBefore names))
             _ (fun e => JS.isArrayIndex (fst e) = true)).
    + intros a b Ha Hb Hab.
      unfold Counting.enumeratedBefore, Counting.keyBefore, JS.isArrayIndex, JS.indexOf in *.
      destruct (JS.arrayIndex (fst a)) as [m|] eqn:Hm; [|discriminate].
      destruct (JS.arrayIndex (fst b)) as [n|] eqn:Hn; [|discriminate].
      unfold Counting.descendingThen in Hab. cbn beta in Hab. rewrite Hm, Hn in Hab.
      destruct Hab as [Hlt|[Heq Hcreated]]; [lia|].
      assert (m = n) by lia. subst n.
      unfold Counting.createdBefore in Hcreated.
      rewrite (arrayIndex_inj _ _ _ Hm Hn) in Hcreated. lia.
    + apply Forall_forall. intros e He.
      apply list_elem_of_In in He.
      apply sort_In in He.
      apply filter_In in He. tauto.
    + apply sort_stable; [intros; lia|].
      apply StronglySorted_filter, Ho.
  - apply (StronglySorted_within (Counting.createdBefore names) _
             (fun e => JS.isArrayIndex (fst e) = false)).
    + intros a b Ha Hb Hab.
      unfold Counting.enumeratedBefore, Counting.keyBefore, JS.isArrayIndex in *.
      destruct (JS.arrayIndex (fst a)); [discriminate|].
      destruct (JS.arrayIndex (fst b)); [discriminate|]. exact Hab.
    + apply Forall_forall. intros e He.
      apply list_elem_of_In, filter_In in He as [_ He].
      apply negb_true_iff, He.
    + apply StronglySorted_filter, Ho.
Qed.

End EntriesOrder.

(** ** Counting contributors *)

Section FirstSeen.

Lemma firstSeen_In_app (x : string) (l l' : list string) :
  In x l -> Counting.firstSeen x (l ++ l') = Counting.firstSeen x l.
Proof.
  induction l as [|y l IH]; cbn; [tauto|].
  intros Hin. destruct (String.eqb_spec x y) as [->|Hne]; [reflexivity|].
  f_equal. apply IH. destruct Hin; [congruence|assumption].
Qed.

Lemma firstSeen_In_lt (x : string) (l : list string) :
  In x l -> (Counting.firstSeen x l < List.length l)%nat.
Proof.
  induction l as [|y l IH]; cbn; [tauto|].
  intros Hin. destruct (String.eqb_spec x y) as [->|Hne]; [lia|].
  assert (In x l) by (destruct Hin; [congruence|assumption]).
  specialize (IH H). lia.
Qed.

Lemma firstSeen_notIn_app (x : string) (l l' : list string) :
  ~ In x l ->
  Counting.firstSeen x (l ++ l') = (List.length l + Counting.firstSeen x l')%nat.
Proof.
  induction l as [|y l IH]; cbn; [reflexivity|].
  intros Hin. destruct (String.eqb_spec x y) as [->|Hne]; [tauto|].
  f_equal. apply IH. tauto.
Qed.

Lemma occurrences_app (x : string) (l l' : list string) :
  Counting.occurrences x (l ++ l') = Counting.occurrences x l + Counting.occurrences x l'.
Proof.
  unfold Counting.occurrences. rewrite List.filter_app, length_app. lia.
Qed.

Lemma occurrences_notIn (x : string) (l : list string) :
  ~ In x l -> Counting.occurrences x l = 0.
Proof.
  unfold Counting.occurrences. induction l as [|y l IH]; cbn; [reflexivity|].
  intros Hin. destruct (String.eqb_spec x y) as [->|Hne]; [tauto|].
  apply IH. tauto.
Qed.

Lemma occurrences_one (x y : string) :
  Counting.occurrences x [y] = if String.eqb x y then 1 else 0.
Proof. unfold Counting.occurrences. cbn. destruct (String.eqb x y); reflexivity. Qed.

Lemma StronglySorted_map_inv {A B} (f : A -> B) (R : B -> B -> Prop) (l : list A) :
  StronglySorted R (map f l) -> StronglySorted (fun a b => R (f a) (f b)) l.
Proof.
  induction l as [|x l IH]; cbn; intros H; [constructor|].
  apply StronglySorted_cons in H as [Hx H].
  constructor; [apply IH, H|].
  apply Forall_forall. intros y Hy. rewrite Forall_forall in Hx. apply Hx.
  apply list_elem_of_In, in_map, list_elem_of_In, Hy.
Qed.

End FirstSeen.

Section ContributorCounts.
Import CommitAnalytics.

Lemma Counted_empty : Invariant.Counted [] [].
Proof.
  split; cbn.
  - tauto.
  - discriminate.
  - constructor.
  - constructor.
Qed.

(** Known keys keep their order when another name is appended. *)
Lemma order_extend (pre : list string) (n : string) (keys : list string) :
  (forall k, In k keys -> In k pre) ->
  StronglySorted (fun a b => (Counting.firstSeen a pre < Counting.firstSeen b pre)%nat) keys ->
  StronglySorted
    (fun a b => (Counting.firstSeen a (pre ++ [n]) < Counting.firstSeen b (pre ++ [n]))%nat) keys.
Proof.
  intros Hsub. apply (StronglySorted_within _ _ (fun k => In k pre)).
  - intros a b Ha Hb. rewrite !firstSeen_In_app by assumption. tauto.
  - apply Forall_forall. intros k Hk. apply Hsub, list_elem_of_In, Hk.
Qed.

Lemma countContributor_Counted (pre : list string) (o : JS.Obj ContributorData)
    (commit : CommitData) :
  Invariant.Counted pre o -> Invariant.Counted (pre ++ [contributorName commit]) (countContributor o commit).
Proof.
  intros [Hkeys Hcount Horder Hnd]. unfold countContributor.
  set (n := contributorName commit).
  assert (Hsub : forall k, In k (JS.ownKeys o) -> In k pre) by (intros k Hk; apply Hkeys, Hk).
  destruct (JS.ownGet n o) as [d|] eqn:Hget.
  - (* a known contributor: one more commit *)
    assert (Hn : In n (JS.ownKeys o)) by (eapply In_ownKeys, ownGet_Some_In, Hget).
    split.
    + intros k. rewrite set_present, Hkeys, in_app_iff by exact Hn. cbn [In].
      split; [tauto|]. intros [[Hk|[<-|[]]] Hin]; [tauto|]. apply Hkeys, Hn.
    + intros k d'. rewrite ownGet_set, occurrences_app, occurrences_one.
      destruct (String.eqb_spec k n) as [->|Hne].
      * intros [= <-]. cbn [count]. rewrite (Hcount n d Hget). reflexivity.
      * intros Hk. rewrite (Hcount k d' Hk). lia.
    + rewrite set_present by exact Hn. apply order_extend; assumption.
    + rewrite set_present by exact Hn. exact Hnd.
  - apply ownGet_None in Hget.
    destruct (JS.inherited n) eqn:Hinh.
    + (* a name the object inherits: nothing is recorded *)
      split.
      * intros k. rewrite Hkeys, in_app_iff. cbn [In].
        split; [tauto|]. intros [[Hk|[<-|[]]] Hin]; [tauto|congruence].
      * intros k d' Hk. rewrite occurrences_app, occurrences_one, (Hcount k d' Hk).
        destruct (String.eqb_spec k n) as [->|Hne]; [|lia].
        exfalso. apply Hget. eapply In_ownKeys, ownGet_Some_In, Hk.
      * apply order_extend; assumption.
      * exact Hnd.
    + (* a new contributor: a new last key *)
      assert (Hpre : ~ In n pre) by (intros Hin; apply Hget, Hkeys; tauto).
      rewrite set_absent by exact Hget.
      split.
      * intros k. unfold JS.ownKeys in *. rewrite map_app, !in_app_iff, Hkeys. cbn [In map fst].
        split; [intros [[Hk Hin]|[<-|[]]]; tauto|].
        intros [[Hk|[<-|[]]] Hin]; tauto.
      * intros k d'. rewrite occurrences_app, occurrences_one.
        destruct (String.eqb_spec k n) as [->|Hne].
        -- intros Hk. apply ownGet_Some_In in Hk. apply in_app_iff in Hk as [Hk|[[= <-]|[]]].
           ++ exfalso. apply Hget. eapply In_ownKeys, Hk.
           ++ cbn [count]. rewrite occurrences_notIn by exact Hpre. reflexivity.
        -- intros Hk. apply ownGet_Some_In in Hk. apply in_app_iff in Hk as [Hk|[[= Heq _]|[]]];
             [|congruence].
           assert (Hk' : JS.ownGet k o = Some d') by (apply In_ownGet; assumption).
           rewrite (Hcount k d' Hk'). lia.
      * unfold JS.ownKeys in *. rewrite map_app. cbn [map fst].
        apply StronglySorted_app_2.
        -- intros a b Ha Hb. apply list_elem_of_In in Ha, Hb.
           destruct Hb as [<-|[]].
           rewrite firstSeen_In_app by (apply Hsub, Ha).
           rewrite firstSeen_notIn_app by exact Hpre.
           pose proof (firstSeen_In_lt a pre (Hsub a Ha)). lia.
        -- apply order_extend; assumption.
        -- repeat constructor.
      * unfold JS.ownKeys in *. rewrite map_app. cbn [map fst].
        apply NoDup_app. split; [exact Hnd|]. split; [|apply NoDup_singleton].
        intros k Hk Hk'. apply list_elem_of_In in Hk, Hk'. destruct Hk' as [<-|[]].
        apply Hget, Hk.
Qed.

Lemma fold_Counted (commits : list CommitData) :
  forall (pre : list string) (o : JS.Obj ContributorData),
    Invariant.Counted pre o ->
    Invariant.Counted (pre ++ map contributorName commits) (fold_left countContributor commits o).
Proof.
  induction commits as [|c cs IH]; intros pre o Ho; cbn [fold_left map].
  - rewrite app_nil_r. exact Ho.
  - replace (pre ++ contributorName c :: map contributorName cs)%list
      with ((pre ++ [contributorName c]) ++ map contributorName cs)%list
      by (rewrite <- app_assoc; reflexivity).
    apply IH, countContributor_Counted, Ho.
Qed.

Lemma contributorCounts_Counted (commits : list CommitData) :
  Invariant.Counted (map contributorName commits) (contributorCounts commits).
Proof. apply (fold_Counted commits [] []), Counted_empty. Qed.

End ContributorCounts.

(** ** Commit aggregation: the contributor ranking *)

Section Ranking.
Import CommitAnalytics.

Lemma StronglySorted_map {A B} (f : A -> B) (R1 : A -> A -> Prop) (R2 : B -> B -> Prop)
    (l : list A) :
  (forall x y, R1 x y -> R2 (f x) (f y)) ->
  StronglySorted R1 l -> StronglySorted R2 (map f l).
Proof.
  intros Hf. induction 1 as [|x l Hl IH Hx]; cbn; constructor; [exact IH|].
  apply Forall_forall. intros y Hy. apply list_elem_of_In, in_map_iff in Hy as (z & <- & Hz).
  rewrite Forall_forall in Hx. apply Hf, Hx, list_elem_of_In, Hz.
Qed.

Lemma In_firstn {A} (n : nat) (l : list A) (x : A) : In x (firstn n l) -> In x l.
Proof.
  intros H. rewrite <- (firstn_skipn n l). apply in_or_app. left. exact H.
Qed.

(** The entries behind the ranking: sorted, and all of them counted. *)
Lemma sorted_entries (commits : list CommitData) :
  let names := map contributorName commits in
  let sorted := JS.sort byCountDescending (JS.entries (contributorCounts commits)) in
  StronglySorted
    (Counting.descendingThen (fun e => count (snd e)) (Counting.enumeratedBefore names)) sorted
  /\ NoDup (map fst sorted)
  /\ (forall e, In e sorted <->
                In (fst e) names /\ JS.inherited (fst e) = false /\
                JS.ownGet (fst e) (contributorCounts commits) = Some (snd e))
  /\ (forall e, In e sorted -> count (snd e) = Counting.occurrences (fst e) names).
Proof.
  intros names sorted.
  destruct (contributorCounts_Counted commits) as [Hkeys Hcount Horder Hnd].
  fold names in Hkeys, Hcount, Horder.
  assert (Hin : forall e, In e sorted <-> In e (contributorCounts commits)).
  { intros e. subst sorted. rewrite sort_In, entries_In. reflexivity. }
  split; [|split; [|split]].
  - subst sorted. apply sort_stable; [reflexivity|].
    apply entries_enumerated. exact (StronglySorted_map_inv fst _ _ Horder).
  - subst sorted.
    assert (Hperm : Permutation
              (map fst (JS.sort byCountDescending (JS.entries (contributorCounts commits))))
              (JS.ownKeys (contributorCounts commits))).
    { unfold JS.ownKeys. apply Permutation_map.
      rewrite sort_Permutation. apply entries_Permutation. }
    rewrite Hperm. exact Hnd.
  - intros [k d]. rewrite Hin. cbn [fst snd]. split.
    + intros He. pose proof (In_ownKeys _ _ _ He) as Hk. apply Hkeys in Hk.
      split; [tauto|]. split; [tauto|]. apply In_ownGet; assumption.
    + intros (_ & _ & Hget). apply ownGet_Some_In, Hget.
  - intros [k d] He. apply Hin in He. cbn [fst snd].
    apply Hcount, In_ownGet; assumption.
Qed.



End Ranking.

Example ranking_ex :
  map (fun r => (CommitAnalytics.name r, CommitAnalytics.contributor_commits r))
    (CommitAnalytics.topContributors
       (CommitAnalytics.processCommitData 0 None RankingScenario.sevenContributors)) =
  [("amy", 3); ("9", 2); ("10", 2); ("zed", 2); ("bob", 1)].
Proof. vm_compute. reflexivity. Qed.

(** * Further properties of the components *)

(** ** Commit quality: what the counters exclude *)

Section QualityCounters.
Import CommitQualityAnalysis.

Lemma categorize_other_grows (lower : string) (p : CommitPatterns) :
  other p <= other (categorize lower p).
Proof.
  unfold categorize.
  repeat match goal with
         | |- context [if ?c then _ else _] => destruct c
         end; cbn; lia.
Qed.

Lemma analyzeCommit_emptiesApart (n : Z) (acc : Counters) (commit : CommitData) :
  Invariant2.emptiesApart n acc -> Invariant2.emptiesApart (n + 1) (analyzeCommit acc commit).
Proof.
  unfold Invariant2.emptiesApart, analyzeCommit. cbn [c_commitsWithDescription c_emptyMessages c_commitPatterns].
  intros (H1 & H2 & H3 & H4).
  destruct (JS.trim (message commit)) as [|ch rest] eqn:Htrim.
  - cbn. change (1 <? Z.of_nat 0) with false. cbn iota. lia.
  - cbn [JS.truthy negb].
    pose proof (categorize_other_grows (JS.toLowerCase (String ch rest)) (c_commitPatterns acc)).
    destruct (1 <? Z.of_nat (List.length (nonBlankLines (String ch rest)))); lia.
Qed.

Lemma fold_emptiesApart (commits : list CommitData) :
  forall (n : Z) (acc : Counters),
    Invariant2.emptiesApart n acc ->
    Invariant2.emptiesApart (n + Z.of_nat (List.length commits)) (fold_left analyzeCommit commits acc).
Proof.
  induction commits as [|c cs IH]; intros n acc Hacc; cbn [fold_left List.length].
  - replace (n + Z.of_nat 0) with n by lia. exact Hacc.
  - replace (n + Z.of_nat (S (List.length cs))) with ((n + 1) + Z.of_nat (List.length cs)) by lia.
    apply IH, analyzeCommit_emptiesApart, Hacc.
Qed.

(** X1: in every analysis the described and the empty commits are
    disjoint (together at most the total), the empty and the short ones
    are disjoint, every empty message is counted in the [other] pattern,
    and no counter is negative. *)
Theorem X1_empty_messages_apart :
  forall (readme : bool) (readmeContent : string) (commits : list CommitData),
    let m := analyzeCommitQuality readme readmeContent commits in
    commitsWithDescription m + emptyMessages m <= totalCommits m
    /\ emptyMessages m + shortMessages m <= totalCommits m
    /\ emptyMessages m <= other (commitPatterns m)
    /\ 0 <= commitsWithDescription m /\ 0 <= emptyMessages m /\ 0 <= shortMessages m
    /\ 0 <= averageMessageLength m.
Proof.
  intros readme readmeContent commits m.
  destruct (fold_emptiesApart commits 0 initialCounters) as (H1 & H2 & H3 & H4).
  { unfold Invariant2.emptiesApart. cbn. lia. }
  destruct (fold_within commits 0 initialCounters) as (Hd & He & Hs & Hes & Hlen).
  { unfold Invariant.countersWithin. cbn. lia. }
  rewrite Z.add_0_l in *.
  subst m. cbn [analyzeCommitQuality commitsWithDescription emptyMessages shortMessages
                  totalCommits commitPatterns averageMessageLength].
  repeat split; try assumption; try lia.
  destruct (Z.ltb_spec 0 (Z.of_nat (List.length commits))) as [Hpos|Hz]; [|lia].
  apply (round_bounds _ 0 (c_totalMessageLength (fold_left analyzeCommit commits initialCounters))).
  unfold JS.num. split.
  - apply Qle_shift_div_l.
    + change 0%Q with (inject_Z 0). rewrite <- Zlt_Qlt. exact Hpos.
    + rewrite Qmult_0_l. change 0%Q with (inject_Z 0). rewrite <- Zle_Qle. exact Hlen.
  - apply Qle_shift_div_r.
    + change 0%Q with (inject_Z 0). rewrite <- Zlt_Qlt. exact Hpos.
    + rewrite <- inject_Z_mult, <- Zle_Qle. nia.
Qed.

End QualityCounters.

(** ** Commit quality: how the score is composed *)

Section ScoreParts.
Import CommitQualityAnalysis.




End ScoreParts.

(** ** Commit quality: the pattern percentages *)

Section PatternPercentages.
Import CommitQualityAnalysis.

Lemma patternEntries_order (p : CommitPatterns) :
  QualityView.patternEntries p =
  [ ("fix", fix_ p); ("feat", feat p); ("refactor", refactor p); ("docs", docs p);
    ("test", test p); ("style", style p); ("other", other p) ].
Proof. reflexivity. Qed.

(** A rounded number is within one half of the number. *)
Lemma round_near (x : Q) :
  (x - (1 # 2) < inject_Z (JS.round x) /\ inject_Z (JS.round x) <= x + (1 # 2))%Q.
Proof.
  unfold JS.round.
  pose proof (Qfloor_le (x + (1 # 2))) as Hlo.
  pose proof (Qlt_floor (x + (1 # 2))) as Hhi.
  rewrite inject_Z_plus in Hhi. change (inject_Z 1) with 1%Q in Hhi.
  split; lra.
Qed.

Lemma bucket_nonneg (readme : bool) (readmeContent : string) (commits : list CommitData)
    (b : Stated.Bucket) :
  0 <= Stated.bucketCount b (commitPatterns (analyzeCommitQuality readme readmeContent commits)).
Proof.
  cbn [analyzeCommitQuality commitPatterns]. rewrite fold_patterns.
  assert (Stated.bucketCount b (c_commitPatterns initialCounters) = 0)
    by (destruct b; reflexivity).
  unfold Stated.classified. lia.
Qed.

Lemma percentage_bounds (m : QualityMetrics) (count : Z) :
  0 <= count <= totalCommits m -> 0 <= QualityView.percentage m count <= 100.
Proof.
  intros Hc. unfold QualityView.percentage. apply round_bounds.
  pose proof (share_bounds count (totalCommits m) Hc).
  change (inject_Z 0) with 0%Q. change (inject_Z 100) with 100%Q. lra.
Qed.

(** X3: the seven pattern rows are shown in the order fix, feat,
    refactor, docs, test, style, other; each percentage lies between 0
    and 100; for a non-empty commit list the seven rounded percentages
    add up to a number between 97 and 103 (not necessarily 100), and for
    the empty list they are all 0. *)
Theorem X3_pattern_percentages :
  forall (readme : bool) (readmeContent : string) (commits : list CommitData),
    let m := analyzeCommitQuality readme readmeContent commits in
    map fst (QualityView.patternEntries (commitPatterns m)) =
      ["fix"; "feat"; "refactor"; "docs"; "test"; "style"; "other"]
    /\ Forall (fun pct => 0 <= pct <= 100) (QualityView.percentages m)
    /\ match commits with
       | [] => QualityView.percentages m = [0; 0; 0; 0; 0; 0; 0]
       | _ :: _ => 97 <= fold_right Z.add 0 (QualityView.percentages m) <= 103
       end.
Proof.
  intros readme readmeContent commits m.
  pose proof (fun b => bucket_nonneg readme readmeContent commits b) as Hnn.
  fold m in Hnn.
  assert (Htotal : Stated.bucketTotal (commitPatterns m) = totalCommits m).
  { subst m. cbn [analyzeCommitQuality commitPatterns totalCommits]. apply fold_total. }
  pose proof (Hnn Stated.Fix) as H1. pose proof (Hnn Stated.Feat) as H2.
  pose proof (Hnn Stated.Refactor) as H3. pose proof (Hnn Stated.Docs) as H4.
  pose proof (Hnn Stated.Test) as H5. pose proof (Hnn Stated.Style) as H6.
  pose proof (Hnn Stated.Other) as H7. cbn [Stated.bucketCount] in H1, H2, H3, H4, H5, H6, H7.
  unfold Stated.bucketTotal in Htotal.
  split; [reflexivity|]. split.
  - unfold QualityView.percentages. rewrite patternEntries_order. cbn [map snd].
    repeat constructor; apply percentage_bounds; lia.
  - destruct commits as [|c cs]; [reflexivity|].
    unfold QualityView.percentages. rewrite patternEntries_order. cbn [map snd fold_right].
    unfold QualityView.percentage.
    set (t := totalCommits m) in *.
    assert (Ht : 1 <= t) by (subst t m; cbn [analyzeCommitQuality totalCommits List.length]; lia).
    replace (JS.max t 1) with t by (unfold JS.max; lia).
    assert (Hinv : (JS.num t * / JS.num t == 1)%Q).
    { apply Qmult_inv_r. unfold JS.num. change 0%Q with (inject_Z 0).
      rewrite inject_Z_injective. lia. }
    assert (Hsum : (JS.num (fix_ (commitPatterns m)) / JS.num t * 100
                    + JS.num (feat (commitPatterns m)) / JS.num t * 100
                    + JS.num (refactor (commitPatterns m)) / JS.num t * 100
                    + JS.num (docs (commitPatterns m)) / JS.num t * 100
                    + JS.num (test (commitPatterns m)) / JS.num t * 100
                    + JS.num (style (commitPatterns m)) / JS.num t * 100
                    + JS.num (other (commitPatterns m)) / JS.num t * 100 == 100)%Q).
    { rewrite <- Htotal in Hinv at 1. unfold JS.num in *.
      rewrite !inject_Z_plus in Hinv. unfold Qdiv.
      set (i := (/ inject_Z t)%Q) in *.
      transitivity (((inject_Z (fix_ (commitPatterns m)) + inject_Z (feat (commitPatterns m))
                      + inject_Z (refactor (commitPatterns m)) + inject_Z (docs (commitPatterns m))
                      + inject_Z (test (commitPatterns m)) + inject_Z (style (commitPatterns m))
                      + inject_Z (other (commitPatterns m))) * i) * 100)%Q; [ring|].
      rewrite Hinv. reflexivity. }
    set (x1 := (JS.num (fix_ (commitPatterns m)) / JS.num t * 100)%Q) in *.
    set (x2 := (JS.num (feat (commitPatterns m)) / JS.num t * 100)%Q) in *.
    set (x3 := (JS.num (refactor (commitPatterns m)) / JS.num t * 100)%Q) in *.
    set (x4 := (JS.num (docs (commitPatterns m)) / JS.num t * 100)%Q) in *.
    set (x5 := (JS.num (test (commitPatterns m)) / JS.num t * 100)%Q) in *.
    set (x6 := (JS.num (style (commitPatterns m)) / JS.num t * 100)%Q) in *.
    set (x7 := (JS.num (other (commitPatterns m)) / JS.num t * 100)%Q) in *.
    pose proof (round_near x1) as [A1 B1]. set (r1 := JS.round x1) in *.
    pose proof (round_near x2) as [A2 B2]. set (r2 := JS.round x2) in *.
    pose proof (round_near x3) as [A3 B3]. set (r3 := JS.round x3) in *.
    pose proof (round_near x4) as [A4 B4]. set (r4 := JS.round x4) in *.
    pose proof (round_near x5) as [A5 B5]. set (r5 := JS.round x5) in *.
    pose proof (round_near x6) as [A6 B6]. set (r6 := JS.round x6) in *.
    pose proof (round_near x7) as [A7 B7]. set (r7 := JS.round x7) in *.
    assert (Hlo : (inject_Z 96 < inject_Z (r1 + (r2 + (r3 + (r4 + (r5 + (r6 + (r7 + 0))))))))%Q).
    { rewrite !inject_Z_plus. change (inject_Z 96) with 96%Q. change (inject_Z 0) with 0%Q. lra. }
    assert (Hhi : (inject_Z (r1 + (r2 + (r3 + (r4 + (r5 + (r6 + (r7 + 0))))))) < inject_Z 104)%Q).
    { rewrite !inject_Z_plus. change (inject_Z 104) with 104%Q. change (inject_Z 0) with 0%Q. lra. }
    rewrite <- Zlt_Qlt in Hlo, Hhi. lia.
Qed.

End PatternPercentages.

(** ** Commit quality: what the analysis ignores *)

Section MessageVariations.
Import CommitQualityAnalysis.

Lemma lowerChar_idempotent (c : ascii) : JS.lowerChar (JS.lowerChar c) = JS.lowerChar c.
Proof. destruct c as [[] [] [] [] [] [] [] []]; reflexivity. Qed.

Lemma lowerChar_upperChar (c : ascii) :
  JS.lowerChar (QualityView.upperChar c) = JS.lowerChar c.
Proof. destruct c as [[] [] [] [] [] [] [] []]; reflexivity. Qed.

Lemma isWhiteSpace_lowerChar (c : ascii) : JS.isWhiteSpace (JS.lowerChar c) = JS.isWhiteSpace c.
Proof. destruct c as [[] [] [] [] [] [] [] []]; reflexivity. Qed.

Lemma isWhiteSpace_upperChar (c : ascii) :
  JS.isWhiteSpace (QualityView.upperChar c) = JS.isWhiteSpace c.
Proof. destruct c as [[] [] [] [] [] [] [] []]; reflexivity. Qed.

(** Maps on code units that keep white space white space commute with
    trimming. *)
Section CharMap.
Variable f : ascii -> ascii.
Hypothesis f_space : forall c, JS.isWhiteSpace (f c) = JS.isWhiteSpace c.

Lemma trimStart_mapChars (s : string) : JS.trimStart (QualityView.mapChars f s) = QualityView.mapChars f (JS.trimStart s).
Proof.
  induction s as [|c s IH]; [reflexivity|].
  cbn [QualityView.mapChars JS.trimStart]. rewrite f_space.
  destruct (JS.isWhiteSpace c); [exact IH|reflexivity].
Qed.

Lemma trimEnd_mapChars (s : string) : JS.trimEnd (QualityView.mapChars f s) = QualityView.mapChars f (JS.trimEnd s).
Proof.
  induction s as [|c s IH]; [reflexivity|].
  cbn [QualityView.mapChars JS.trimEnd]. rewrite IH, f_space.
  destruct (JS.trimEnd s); cbn [QualityView.mapChars]; [|reflexivity].
  destruct (JS.isWhiteSpace c); reflexivity.
Qed.

Lemma trim_mapChars (s : string) : JS.trim (QualityView.mapChars f s) = QualityView.mapChars f (JS.trim s).
Proof. unfold JS.trim. rewrite trimStart_mapChars, trimEnd_mapChars. reflexivity. Qed.

End CharMap.

Lemma toLowerCase_mapChars (s : string) :
  JS.toLowerCase s = QualityView.mapChars JS.lowerChar s.
Proof. induction s as [|c s IH]; cbn; [|rewrite IH]; reflexivity. Qed.

Lemma toLowerCase_idempotent (s : string) :
  JS.toLowerCase (JS.toLowerCase s) = JS.toLowerCase s.
Proof.
  induction s as [|c s IH]; cbn; [reflexivity|]. rewrite IH, lowerChar_idempotent. reflexivity.
Qed.

Lemma toLowerCase_upperAscii (s : string) :
  JS.toLowerCase (QualityView.upperAscii s) = JS.toLowerCase s.
Proof.
  unfold QualityView.upperAscii.
  induction s as [|c s IH]; cbn; [reflexivity|]. rewrite IH, lowerChar_upperChar. reflexivity.
Qed.

(** The lower-cased trimmed message, which is all the pattern chain
    reads, is the same for a message and its lower- or upper-cased form. *)
Lemma lowerMessage_of_lowered (s : string) :
  JS.toLowerCase (JS.trim (JS.toLowerCase s)) = JS.toLowerCase (JS.trim s).
Proof.
  rewrite (toLowerCase_mapChars s), (trim_mapChars _ isWhiteSpace_lowerChar).
  rewrite <- toLowerCase_mapChars. apply toLowerCase_idempotent.
Qed.

Lemma lowerMessage_of_uppered (s : string) :
  JS.toLowerCase (JS.trim (QualityView.upperAscii s)) = JS.toLowerCase (JS.trim s).
Proof.
  unfold QualityView.upperAscii.
  rewrite (trim_mapChars _ isWhiteSpace_upperChar). apply toLowerCase_upperAscii.
Qed.

Lemma fold_patterns_of_variation (f : string -> string) (commits : list CommitData) :
  (forall s, JS.toLowerCase (JS.trim (f s)) = JS.toLowerCase (JS.trim s)) ->
  forall acc acc' : Counters,
    c_commitPatterns acc = c_commitPatterns acc' ->
    c_commitPatterns (fold_left analyzeCommit (map (QualityView.mapMessage f) commits) acc) =
    c_commitPatterns (fold_left analyzeCommit commits acc').
Proof.
  intros Hf. induction commits as [|c cs IH]; intros acc acc' Hacc; cbn [map fold_left].
  - exact Hacc.
  - apply IH. rewrite !analyzeCommit_patterns. cbn [QualityView.mapMessage message].
    rewrite Hf, Hacc. reflexivity.
Qed.

(** X4: the pattern histogram ignores letter case: lower-casing every
    message, or upper-casing its letters a-z, changes no bucket count. *)
Theorem X4_patterns_ignore_case :
  forall (readme : bool) (readmeContent : string) (commits : list CommitData),
    commitPatterns
      (analyzeCommitQuality readme readmeContent
         (map (QualityView.mapMessage JS.toLowerCase) commits)) =
    commitPatterns (analyzeCommitQuality readme readmeContent commits)
    /\ commitPatterns
         (analyzeCommitQuality readme readmeContent
            (map (QualityView.mapMessage QualityView.upperAscii) commits)) =
       commitPatterns (analyzeCommitQuality readme readmeContent commits).
Proof.
  intros readme readmeContent commits.
  cbn [analyzeCommitQuality commitPatterns].
  split; apply fold_patterns_of_variation;
    auto using lowerMessage_of_lowered, lowerMessage_of_uppered.
Qed.

Lemma trimEnd_cons (c : ascii) (s : string) :
  JS.trimEnd (String c s) =
  match JS.trimEnd s with
  | EmptyString => if JS.isWhiteSpace c then EmptyString else String c EmptyString
  | r => String c r
  end.
Proof. reflexivity. Qed.

Lemma trimEnd_idempotent (s : string) : JS.trimEnd (JS.trimEnd s) = JS.trimEnd s.
Proof.
  induction s as [|c s IH]; [reflexivity|].
  rewrite trimEnd_cons. destruct (JS.trimEnd s) as [|d r] eqn:Hr.
  - destruct (JS.isWhiteSpace c) eqn:Hc; [reflexivity|].
    rewrite trimEnd_cons. cbn [JS.trimEnd]. rewrite Hc. reflexivity.
  - rewrite trimEnd_cons, IH. reflexivity.
Qed.

(** Trimming the end keeps a first character that is not white space. *)
Lemma trimStart_trimEnd (s : string) :
  JS.trimStart s = s -> JS.trimStart (JS.trimEnd s) = JS.trimEnd s.
Proof.
  destruct s as [|c s]; [reflexivity|].
  cbn [JS.trimStart]. destruct (JS.isWhiteSpace c) eqn:Hc.
  - intros H. exfalso.
    assert (Hlen : (String.length (JS.trimStart s) <= String.length s)%nat).
    { clear. induction s as [|d s IH]; cbn; [lia|].
      destruct (JS.isWhiteSpace d); cbn; lia. }
    rewrite H in Hlen. cbn in Hlen. lia.
  - intros _. cbn [JS.trimEnd]. destruct (JS.trimEnd s).
    + rewrite Hc. cbn [JS.trimStart]. rewrite Hc. reflexivity.
    + cbn [JS.trimStart]. rewrite Hc. reflexivity.
Qed.

Lemma trimStart_shorter (s : string) :
  (String.length (JS.trimStart s) <= String.length s)%nat.
Proof.
  induction s as [|d s IH]; cbn; [lia|]. destruct (JS.isWhiteSpace d); cbn; lia.
Qed.

(** What trimming the end leaves is empty or ends in a character that is
    not white space. *)
Lemma trimEnd_last (s : string) :
  JS.trimEnd s = EmptyString \/
  exists last, String.get (String.length (JS.trimEnd s) - 1) (JS.trimEnd s) = Some last
               /\ JS.isWhiteSpace last = false.
Proof.
  induction s as [|c s IH]; [left; reflexivity|].
  cbn [JS.trimEnd]. destruct (JS.trimEnd s) as [|d r] eqn:Hr.
  - destruct (JS.isWhiteSpace c) eqn:Hc; [left; reflexivity|].
    right. exists c. split; [reflexivity|exact Hc].
  - right. destruct IH as [IH|(last & Hget & Hlast)]; [discriminate|].
    exists last. split; [|exact Hlast].
    cbn [String.length Nat.sub] in *. rewrite Nat.sub_0_r in *.
    destruct (String.length r) as [|n] eqn:Hn; cbn [String.get] in *; exact Hget.
Qed.

Lemma trimStart_idempotent (s : string) : JS.trimStart (JS.trimStart s) = JS.trimStart s.
Proof.
  induction s as [|c s IH]; [reflexivity|].
  cbn [JS.trimStart]. destruct (JS.isWhiteSpace c) eqn:Hc; [exact IH|].
  cbn [JS.trimStart]. rewrite Hc. reflexivity.
Qed.

Lemma trim_idempotent (s : string) : JS.trim (JS.trim s) = JS.trim s.
Proof.
  unfold JS.trim.
  rewrite (trimStart_trimEnd (JS.trimStart s)) by apply trimStart_idempotent.
  apply trimEnd_idempotent.
Qed.

(** X5: the analysis reads each message only after trimming, and
    trimming twice is trimming once: white space around the messages
    changes none of the metrics, hence not the score. *)
Theorem X5_analysis_ignores_padding :
  forall (readme : bool) (readmeContent : string) (commits : list CommitData),
    analyzeCommitQuality readme readmeContent (map (QualityView.mapMessage JS.trim) commits) =
    analyzeCommitQuality readme readmeContent commits
    /\ (forall s, JS.trim (JS.trim s) = JS.trim s)
    /\ (forall s, JS.trim s = EmptyString \/
                  exists first rest last,
                    JS.trim s = String first rest
                    /\ JS.isWhiteSpace first = false
                    /\ String.get (String.length (JS.trim s) - 1) (JS.trim s) = Some last
                    /\ JS.isWhiteSpace last = false).
Proof.
  intros readme readmeContent commits.
  assert (Hstep : forall acc c,
            analyzeCommit acc (QualityView.mapMessage JS.trim c) = analyzeCommit acc c).
  { intros acc c. unfold analyzeCommit. cbn [QualityView.mapMessage message].
    rewrite trim_idempotent. reflexivity. }
  assert (Hfold : forall cs acc,
            fold_left analyzeCommit (map (QualityView.mapMessage JS.trim) cs) acc =
            fold_left analyzeCommit cs acc).
  { induction cs as [|c cs IH]; intros acc; cbn [map fold_left]; [reflexivity|].
    rewrite Hstep. apply IH. }
  split; [|split; [apply trim_idempotent|]].
  - unfold analyzeCommitQuality. rewrite Hfold, length_map. reflexivity.
  - intros s. unfold JS.trim.
    destruct (trimEnd_last (JS.trimStart s)) as [Hempty|(last & Hget & Hlast)];
      [left; exact Hempty|]. right.
    pose proof (trimStart_trimEnd (JS.trimStart s) (trimStart_idempotent s)) as Hfix.
    destruct (JS.trimEnd (JS.trimStart s)) as [|first rest] eqn:Ht; [discriminate|].
    exists first, rest, last. repeat split; try assumption.
    cbn [JS.trimStart] in Hfix. destruct (JS.isWhiteSpace first); [|reflexivity].
    exfalso. pose proof (trimStart_shorter rest) as Hlen. rewrite Hfix in Hlen. cbn in Hlen. lia.
Qed.

End MessageVariations.

(** ** Commit analytics: the recent-commit rows *)

Section RecentRows.

Lemma substring_prefix (n : nat) (s : string) :
  String.prefix (String.substring 0 n s) s = true
  /\ String.length (String.substring 0 n s) = Nat.min n (String.length s).
Proof.
  revert s. induction n as [|n IH]; intros s.
  - destruct s; split; reflexivity.
  - destruct s as [|c s]; [split; reflexivity|].
    destruct (IH s) as [Hp Hl]. cbn [String.substring String.prefix String.length Nat.min].
    destruct (Ascii.ascii_dec c c) as [_|Hne]; [|congruence].
    split; [exact Hp|]. rewrite Hl. reflexivity.
Qed.

(** X6: the title shown for a recent commit always exists, contains no
    line break, and is the message itself or the part of the message
    before its first line break; the abbreviated hash is the first seven
    characters of the hash, or all of it when it is shorter. *)
Theorem X6_recent_commit_row :
  forall commit : CommitAnalytics.CommitData,
    (exists title,
        CommitAnalyticsView.titleLine commit = Some title
        /\ JS.hasChar "010" title = false
        /\ (CommitAnalytics.commit_message commit = title
            \/ exists rest,
                 CommitAnalytics.commit_message commit
                 = (title ++ String "010" EmptyString ++ rest)%string))
    /\ String.prefix (CommitAnalyticsView.shortSha commit) (CommitAnalytics.sha commit) = true
    /\ String.length (CommitAnalyticsView.shortSha commit)
       = Nat.min 7 (String.length (CommitAnalytics.sha commit)).
Proof.
  intros commit. split; [|apply substring_prefix].
  unfold CommitAnalyticsView.titleLine.
  pose proof (split_not_nil "010" (CommitAnalytics.commit_message commit)) as Hnil.
  pose proof (split_no_separator "010" (CommitAnalytics.commit_message commit)) as Hsep.
  pose proof (split_concat "010" (CommitAnalytics.commit_message commit)) as Hcat.
  destruct (JS.split "010" (CommitAnalytics.commit_message commit)) as [|title rest];
    [contradiction|].
  exists title. split; [reflexivity|]. split.
  - apply Forall_cons in Hsep as [Ht _]. exact Ht.
  - cbn [String.concat] in Hcat. destruct rest as [|r rs].
    + left. symmetry. exact Hcat.
    + right. eexists. symmetry. exact Hcat.
Qed.

End RecentRows.

(** ** Commit analytics: the default window and the cards *)

Section DefaultWindow.
Import CommitAnalytics.





End DefaultWindow.

(** ** Commit analytics: when the trend accounts for every commit *)

Section TrendComplete.
Import CommitAnalytics.




End TrendComplete.


(** ** Commit analytics: the "Recent Activity" card *)

Section RecentActivity.
Import CommitAnalytics.







End RecentActivity.

(** ** Commit analytics: the weekday histogram *)

Section Weekdays.
Import CommitAnalytics.

Lemma weekdayName_In (zone t : Z) : In (CommitAnalyticsView.weekdayName zone t)
                                      CommitAnalyticsView.weekdays.
Proof.
  unfold CommitAnalyticsView.weekdayName. apply nth_In.
  pose proof (Z.mod_pos_bound (Time.isoDate (t + zone) + 3) 7 ltac:(lia)).
  change (List.length CommitAnalyticsView.weekdays) with 7%nat. lia.
Qed.

Lemma countByWeekday_countAt (zone : Z) (acc : JS.Obj Z) (c : CommitData) (day : string) :
  CommitAnalyticsView.countAt (CommitAnalyticsView.countByWeekday zone acc c) day =
  CommitAnalyticsView.countAt acc day
  + (if String.eqb (CommitAnalyticsView.weekdayName zone (commit_author_date c)) day
     then 1 else 0).
Proof.
  unfold CommitAnalyticsView.countByWeekday, CommitAnalyticsView.countAt at 1.
  rewrite ownGet_set. rewrite (String.eqb_sym day).
  destruct (String.eqb_spec (CommitAnalyticsView.weekdayName zone (commit_author_date c)) day)
    as [->|Hne]; [reflexivity|].
  fold (CommitAnalyticsView.countAt acc day). lia.
Qed.

Lemma fold_countByWeekday (zone : Z) (day : string) (commits : list CommitData) :
  forall acc : JS.Obj Z,
    CommitAnalyticsView.countAt (fold_left (CommitAnalyticsView.countByWeekday zone) commits acc)
      day =
    CommitAnalyticsView.countAt acc day + CommitAnalyticsView.commitsOnWeekday zone day commits.
Proof.
  induction commits as [|c cs IH]; intros acc.
  - unfold CommitAnalyticsView.commitsOnWeekday. cbn. lia.
  - cbn [fold_left]. rewrite IH, countByWeekday_countAt.
    unfold CommitAnalyticsView.commitsOnWeekday. cbn [List.filter].
    destruct (String.eqb _ day); cbn [List.length]; lia.
Qed.

(** Every commit is authored on exactly one of the seven weekdays. *)
Lemma weekday_sum (zone : Z) (commits : list CommitData) :
  fold_right Z.add 0
    (map (fun day => CommitAnalyticsView.commitsOnWeekday zone day commits)
       CommitAnalyticsView.weekdays)
  = Z.of_nat (List.length commits).
Proof.
  induction commits as [|c cs IH]; [reflexivity|].
  unfold CommitAnalyticsView.commitsOnWeekday in *.
  cbn [CommitAnalyticsView.weekdays map fold_right List.filter] in *.
  pose proof (weekdayName_In zone (commit_author_date c)) as Hin.
  cbn [CommitAnalyticsView.weekdays In] in Hin.
  destruct Hin as [<-|[<-|[<-|[<-|[<-|[<-|[<-|[]]]]]]]]; cbn [String.eqb Ascii.eqb Bool.eqb];
    cbn [List.length]; lia.
Qed.

(** X10: the weekday histogram has the seven rows Mon..Sun in this
    order; a row counts the commits authored on that weekday, and, unlike
    the trend, the seven counts always add up to the number of commits. *)
Theorem X10_weekday_histogram :
  forall (zone : Z) (commits : list CommitData),
    let rows := CommitAnalyticsView.dailyActivity zone commits in
    map fst rows = ["Mon"; "Tue"; "Wed"; "Thu"; "Fri"; "Sat"; "Sun"]
    /\ Forall (fun row => snd row = CommitAnalyticsView.commitsOnWeekday zone (fst row) commits)
         rows
    /\ fold_right Z.add 0 (map snd rows) = Z.of_nat (List.length commits)
    /\ Forall (fun day => JS.inherited day = false /\ JS.arrayIndex day = None)
         CommitAnalyticsView.weekdays.
Proof.
  intros zone commits rows.
  assert (Hrow : forall day,
             CommitAnalyticsView.countAt (CommitAnalyticsView.dayOfWeekCounts zone commits) day
             = CommitAnalyticsView.commitsOnWeekday zone day commits).
  { intros day. unfold CommitAnalyticsView.dayOfWeekCounts.
    rewrite fold_countByWeekday. reflexivity. }
  split; [|split; [|split]].
  - subst rows. unfold CommitAnalyticsView.dailyActivity. rewrite map_map. cbn [fst].
    apply map_id.
  - subst rows. unfold CommitAnalyticsView.dailyActivity.
    apply Forall_map, Forall_forall. intros day _. cbn [fst snd]. apply Hrow.
  - subst rows. unfold CommitAnalyticsView.dailyActivity. rewrite map_map. cbn [snd].
    rewrite <- (weekday_sum zone commits). f_equal. apply map_ext. exact Hrow.
  - repeat constructor.
Qed.

End Weekdays.

(** ** Commit analytics: what is shown after a fetch *)

Section FetchView.
Import CommitAnalyticsView.





End FetchView.

(** ** Event aggregation: totals and distribution *)

Section EventTotals.
Import GitActivityAnalysis.





End EventTotals.

(** ** Event aggregation: the member table *)

Section MemberTable.
Import GitActivityAnalysis.

Lemma set_set {V} (o : JS.Obj V) (k : string) (v v' : V) :
  JS.set k v (JS.set k v' o) = JS.set k v o.
Proof.
  induction o as [|[k0 v0] o IH]; cbn.
  - rewrite String.eqb_refl. reflexivity.
  - destruct (String.eqb_spec k k0) as [->|Hne]; cbn.
    + rewrite String.eqb_refl. reflexivity.
    + destruct (String.eqb_spec k k0); [congruence|]. rewrite IH. reflexivity.
Qed.

Lemma eventsBy_app (n : string) (k : Kind) (pre : list GitEvent) (e : GitEvent) :
  ActivityCounting.eventsBy n k (pre ++ [e]) =
  ActivityCounting.eventsBy n k pre
  + (if ActivityCounting.isKind k e && String.eqb (actor_login e) n then 1 else 0).
Proof.
  unfold ActivityCounting.eventsBy. rewrite List.filter_app, length_app. cbn [List.filter].
  destruct (ActivityCounting.isKind k e && String.eqb (actor_login e) n); cbn [List.length]; lia.
Qed.

Lemma eventsBy_notIn (n : string) (k : Kind) (pre : list GitEvent) :
  ~ In n (map actor_login pre) -> ActivityCounting.eventsBy n k pre = 0.
Proof.
  unfold ActivityCounting.eventsBy. induction pre as [|e pre IH]; cbn [map In List.filter];
    [reflexivity|].
  intros Hn. destruct (String.eqb_spec (actor_login e) n) as [Heq|Hne]; [tauto|].
  rewrite andb_false_r. apply IH. tauto.
Qed.

Lemma Tallied_empty : ActivityCounting.Tallied [] [].
Proof.
  split; cbn.
  - tauto.
  - discriminate.
  - constructor.
Qed.

Lemma countEvent_Tallied (pre : list GitEvent) (acc : Tally) (e : GitEvent) :
  ActivityCounting.Tallied pre (t_memberActivity acc) ->
  ActivityCounting.Tallied (pre ++ [e]) (t_memberActivity (countEvent acc e)).
Proof.
  intros [Hkeys Hcount Hnd]. unfold countEvent. cbn [t_memberActivity].
  set (o := t_memberActivity acc) in *.
  set (n := actor_login e).
  set (k0 := kindOf (type e)).
  assert (Hone : forall kind m, kind <> Ignored ->
            Counting.field kind (bump k0 m) =
            Counting.field kind m + (if ActivityCounting.isKind kind e then 1 else 0)).
  { intros kind m Hk. apply field_bump, Hk. }
  destruct (JS.ownGet n o) as [m|] eqn:Hget.
  - (* a known member *)
    rewrite Hget.
    assert (Hn : In n (JS.ownKeys o)) by (eapply In_ownKeys, ownGet_Some_In, Hget).
    split.
    + intros k. rewrite set_present, Hkeys, map_app, in_app_iff by exact Hn. cbn [In map].
      split; [tauto|]. intros [[Hk|[<-|[]]] Hin]; [tauto|]. apply Hkeys, Hn.
    + intros k m' kind. rewrite ownGet_set, eventsBy_app. fold n.
      destruct (String.eqb_spec k n) as [->|Hne].
      * intros [= <-] Hk. cbn [member_activity]. rewrite String.eqb_refl, andb_true_r.
        rewrite Hone, (Hcount n m kind Hget Hk) by exact Hk. reflexivity.
      * intros Hk Hkind. rewrite (Hcount k m' kind Hk Hkind).
        destruct (String.eqb_spec n k); [congruence|]. rewrite andb_false_r. lia.
    + rewrite set_present by exact Hn. exact Hnd.
  - pose proof Hget as Hnone. apply ownGet_None in Hget.
    destruct (JS.inherited n) eqn:Hinh.
    + (* a name the object inherits: no own entry *)
      rewrite Hnone. split.
      * intros k. rewrite Hkeys, map_app, in_app_iff. cbn [In map].
        split; [tauto|]. intros [[Hk|[<-|[]]] Hin]; [tauto|]. fold n in Hin. congruence.
      * intros k m' kind Hk Hkind. rewrite eventsBy_app, (Hcount k m' kind Hk Hkind). fold n.
        destruct (String.eqb_spec n k) as [<-|Hne]; [congruence|].
        rewrite andb_false_r. lia.
      * exact Hnd.
    + (* a new member: a new last key *)
      rewrite ownGet_set, String.eqb_refl, set_set. cbn [member_activity member_avatar].
      assert (Hpre : ~ In n (map actor_login pre)) by (intros Hin; apply Hget, Hkeys; tauto).
      rewrite set_absent by exact Hget.
      split.
      * intros k. unfold JS.ownKeys in *.
        rewrite !map_app, !in_app_iff, Hkeys. cbn [In map fst]. fold n.
        split; [intros [[Hk Hin]|[<-|[]]]; tauto|].
        intros [[Hk|[<-|[]]] Hin]; tauto.
      * intros k m' kind Hk Hkind. rewrite eventsBy_app. fold n.
        apply ownGet_Some_In in Hk. apply in_app_iff in Hk as [Hk|[[= <- <-]|[]]].
        -- assert (Hk' : JS.ownGet k o = Some m') by (apply In_ownGet; assumption).
           rewrite (Hcount k m' kind Hk' Hkind).
           destruct (String.eqb_spec n k) as [<-|Hne].
           ++ exfalso. apply Hget. eapply In_ownKeys, Hk.
           ++ rewrite andb_false_r. lia.
        -- cbn [member_activity]. rewrite String.eqb_refl, andb_true_r.
           rewrite Hone, eventsBy_notIn by assumption. destruct kind; cbn; congruence.
      * unfold JS.ownKeys in *. rewrite map_app. cbn [map fst].
        apply NoDup_app. split; [exact Hnd|]. split; [|apply NoDup_singleton].
        intros k Hk Hk'. apply list_elem_of_In in Hk, Hk'. destruct Hk' as [<-|[]].
        apply Hget, Hk.
Qed.

Lemma fold_Tallied (events : list GitEvent) :
  forall (pre : list GitEvent) (acc : Tally),
    ActivityCounting.Tallied pre (t_memberActivity acc) ->
    ActivityCounting.Tallied (pre ++ events) (t_memberActivity (fold_left countEvent events acc)).
Proof.
  induction events as [|e es IH]; intros pre acc Hacc; cbn [fold_left].
  - rewrite app_nil_r. exact Hacc.
  - replace (pre ++ e :: es)%list with ((pre ++ [e]) ++ es)%list
      by (rewrite <- app_assoc; reflexivity).
    apply IH, countEvent_Tallied, Hacc.
Qed.

Lemma StronglySorted_any {A} (l : list A) : StronglySorted (fun _ _ => True) l.
Proof.
  induction l as [|x l IH]; constructor; [exact IH|].
  apply Forall_forall. intros; exact I.
Qed.

(** X13: the member table has at most ten rows, no member twice, ordered
    by total descending.  A row belongs to an actor of the events whose
    name a plain object does not inherit; its three counts are the
    numbers of that actor's pushes, pull requests and merges/reviews
    among all the events, and its total is their sum.  Such an actor is
    left out only when ten are listed, and then has no more counted
    events than any listed member. *)
Theorem X13_member_table :
  forall (now : Z) (events : list GitEvent),
    let rows := memberActivity (processGitEvents now events) in
    let counted n k := ActivityCounting.eventsBy n k events in
    (List.length rows <= 10)%nat
    /\ NoDup (map member rows)
    /\ StronglySorted (fun a b => total b <= total a) rows
    /\ Forall (fun row =>
         In (member row) (map actor_login events)
         /\ JS.inherited (member row) = false
         /\ member_pushes row = counted (member row) Push
         /\ member_pulls row = counted (member row) PullRequest
         /\ member_merges row = counted (member row) Merge
         /\ total row = member_pushes row + member_pulls row + member_merges row) rows
    /\ (forall n, In n (map actor_login events) -> JS.inherited n = false ->
          ~ In n (map member rows) ->
          List.length rows = 10%nat
          /\ Forall (fun row =>
               counted n Push + counted n PullRequest + counted n Merge <= total row) rows).
Proof.
  intros now events rows counted.
  destruct (fold_Tallied events [] emptyTally Tallied_empty) as [Hkeys Hcount Hnd].
  cbn [app] in Hkeys, Hcount.
  set (o := t_memberActivity (fold_left countEvent events emptyTally)) in *.
  set (sorted := JS.sort (fun a b => total b - total a) (map memberRow (JS.entries o))).
  assert (Hrows : rows = firstn 10 sorted) by reflexivity.
  assert (Hsorted : StronglySorted (fun a b => total b <= total a) sorted).
  { rewrite <- (map_id sorted).
    apply (StronglySorted_map (fun row : MemberRow => row)
             (Counting.descendingThen total (fun _ _ => True))).
    - intros a b [Hlt|[Heq _]]; lia.
    - apply sort_stable; [reflexivity|apply StronglySorted_any]. }
  assert (Hin : forall row, In row sorted <-> exists e, In e o /\ row = memberRow e).
  { intros row. subst sorted.
    rewrite (sort_In (fun a b => total b - total a)), in_map_iff.
    split; intros (e & H1 & H2).
    - exists e. split; [exact (proj1 (entries_In _ _) H2)|congruence].
    - exists e. split; [congruence|]. exact (proj2 (entries_In _ _) H1). }
  assert (Hperm : Permutation (map member sorted) (JS.ownKeys o)).
  { subst sorted. unfold JS.ownKeys.
    rewrite (sort_Permutation (fun a b => total b - total a)), map_map.
    rewrite <- (Permutation_map fst (entries_Permutation o)).
    apply Permutation_refl. }
  assert (Hrow : forall row, In row sorted ->
            In (member row) (map actor_login events)
            /\ JS.inherited (member row) = false
            /\ forall kind, kind <> Ignored ->
                 ActivityCounting.memberColumn kind row = counted (member row) kind).
  { intros row Hr. apply Hin in Hr as ([k m] & He & ->). cbn [memberRow member fst snd].
    pose proof (In_ownKeys _ _ _ He) as Hk. apply Hkeys in Hk.
    split; [tauto|]. split; [tauto|]. intros kind Hkind. unfold counted.
    rewrite <- (Hcount k m kind (In_ownGet _ _ _ Hnd He) Hkind).
    destruct kind; cbn; congruence. }
  split; [|split; [|split; [|split]]].
  - rewrite Hrows. apply firstn_le_length.
  - rewrite Hrows, <- firstn_map.
    assert (Hnd' : NoDup (map member sorted)) by (rewrite Hperm; exact Hnd).
    rewrite <- (firstn_skipn 10 (map member sorted)) in Hnd'.
    apply NoDup_app in Hnd'. tauto.
  - rewrite Hrows. apply StronglySorted_firstn, Hsorted.
  - rewrite Hrows. apply Forall_forall. intros row Hr.
    apply list_elem_of_In, In_firstn in Hr.
    pose proof Hr as Hr'. apply Hin in Hr' as (e & _ & Htotal).
    destruct (Hrow row Hr) as (Hactor & Hinh & Hcols).
    split; [exact Hactor|]. split; [exact Hinh|].
    pose proof (Hcols Push ltac:(discriminate)) as Hp.
    pose proof (Hcols PullRequest ltac:(discriminate)) as Hq.
    pose proof (Hcols Merge ltac:(discriminate)) as Hm.
    cbn [ActivityCounting.memberColumn] in Hp, Hq, Hm.
    repeat split; try assumption. subst row. reflexivity.
  - intros n Hn Hinh Hout.
    assert (Hk : In n (JS.ownKeys o)) by (apply Hkeys; tauto).
    apply in_map_iff in Hk as ([k m] & Hfst & Hk). cbn in Hfst. subst k.
    assert (Hd : In (memberRow (n, m)) sorted) by (apply Hin; eauto).
    destruct (Hrow _ Hd) as (_ & _ & Hcols).
    pose proof (Hcols Push ltac:(discriminate)) as Hp.
    pose proof (Hcols PullRequest ltac:(discriminate)) as Hq.
    pose proof (Hcols Merge ltac:(discriminate)) as Hm.
    cbn [ActivityCounting.memberColumn memberRow member member_pushes member_pulls
         member_merges fst snd] in Hp, Hq, Hm.
    rewrite <- (firstn_skipn 10 sorted) in Hd, Hsorted.
    apply in_app_iff in Hd as [Hd|Hd].
    { exfalso. apply Hout. rewrite Hrows. apply (in_map member) in Hd. exact Hd. }
    split.
    + rewrite Hrows, length_firstn.
      destruct (le_lt_dec (List.length sorted) 10) as [Hle|Hgt]; [|lia].
      rewrite skipn_all2 in Hd by exact Hle. destruct Hd.
    + rewrite Hrows. apply Forall_forall. intros row Hr.
      pose proof (StronglySorted_app_1_elem_of _ _ _ _ _ Hsorted Hr
                    (proj2 (list_elem_of_In _ _) Hd)) as Hle.
      cbn [memberRow total snd] in Hle. fold (counted n Push) in Hp.
      unfold counted in *. lia.
Qed.

End MemberTable.

(** ** Event aggregation: the histogram against the totals *)

Section HistogramTotals.
Import GitActivityAnalysis.





End HistogramTotals.

(** ** The token manager over a whole session *)

Section TokenSessions.
Import GitHubTokenManager TokenSession.

Lemma trim_truthy (t : string) : JS.truthy (JS.trim t) = true -> JS.truthy t = true.
Proof. destruct t; [discriminate|reflexivity]. Qed.

Lemma validateToken_Settled (saved : option string) (result : FetchResult) (t : string)
    (s : State) :
  JS.truthy (JS.trim t) = true ->
  Settled saved (run (validateToken (fun _ => result) t) s).
Proof.
  intros Ht. unfold validateToken, run. rewrite Ht. cbn [negb].
  destruct result as [[|]|]; vm_compute.
  - exists t. auto.
  - auto.
  - auto.
Qed.

Lemma onMount_Settled (saved : option string) (result : FetchResult) :
  Settled saved (run (onMount (fun _ => result)) (initial saved)).
Proof.
  unfold onMount, run. cbn [initial github_token].
  destruct saved as [t|]; [|cbn; auto].
  destruct (JS.truthy t) eqn:Ht.
  - destruct (JS.truthy (JS.trim t)) eqn:Htrim.
    + apply (validateToken_Settled (Some t) result t), Htrim.
    + unfold validateToken. cbn. rewrite Htrim. cbn. right. eauto.
  - destruct t; [|discriminate]. cbn. right. eauto.
Qed.

Lemma act_Settled (saved : option string) (s : State) (a : Action) :
  Settled saved s -> Settled saved (act s a).
Proof.
  intros Hs. unfold act. destruct (offered a s) eqn:Hoff; [|exact Hs].
  destruct a as [value|result|].
  - exact Hs.
  - cbn in Hoff. apply negb_true_iff, orb_false_iff in Hoff as [Hblank _].
    apply negb_false_iff in Hblank.
    exact (validateToken_Settled saved result (token s) s Hblank).
  - vm_compute. auto.
Qed.

Lemma session_Settled (saved : option string) (atMount : FetchResult)
    (actions : list Action) :
  Settled saved (session saved atMount actions).
Proof.
  unfold session.
  generalize (onMount_Settled saved atMount).
  generalize (run (onMount (fun _ => atMount)) (initial saved)).
  induction actions as [|a actions IH]; intros s Hs; [exact Hs|].
  cbn [fold_left]. apply IH, act_Settled, Hs.
Qed.

(** X15: whatever was stored before, however the requests end and
    whatever the user does, between two actions: the status is valid
    exactly when the parent holds a non-empty token, which is then the
    stored token and not blank; with status invalid nothing is stored and
    the parent holds the empty token; a stored token belongs to status
    valid, or is a blank value left by an earlier visit that no
    validation has touched; the status is never left at checking; and
    the page shows the setup guide exactly when the status is not
    valid. *)
Theorem X15_token_session :
  forall (saved : option string) (atMount : FetchResult) (actions : list Action),
    let s := session saved atMount actions in
    (tokenStatus s = valid <-> exists t, reported s = Some t /\ t <> "")
    /\ (tokenStatus s = valid ->
        github_token s = reported s
        /\ exists t, reported s = Some t /\ JS.truthy (JS.trim t) = true)
    /\ (tokenStatus s = invalid -> github_token s = None /\ reported s = Some "")
    /\ (forall t, github_token s = Some t ->
          tokenStatus s = valid
          \/ (saved = Some t /\ JS.truthy (JS.trim t) = false /\ reported s = None
              /\ tokenStatus s = none))
    /\ tokenStatus s <> checking
    /\ showsSetupGuide s = negb (TokenStatus_eqb (tokenStatus s) valid).
Proof.
  intros saved atMount actions s.
  pose proof (session_Settled saved atMount actions) as Hs. fold s in Hs.
  unfold Settled in Hs. unfold showsSetupGuide, githubToken.
  destruct (tokenStatus s) eqn:Hstatus.
  - (* none *)
    split; [split; [discriminate|]|].
    { intros (t & Ht & Hne).
      destruct Hs as [[_ [Hr|Hr]]|(_ & Hr & _)]; rewrite Hr in Ht; congruence. }
    split; [discriminate|]. split; [discriminate|].
    split; [|split; [discriminate|]].
    + intros t Ht. right.
      destruct Hs as [[Hg _]|(Hg & Hr & t' & Hsaved & Hblank)]; [congruence|].
      rewrite Hg, Hsaved in Ht. injection Ht as <-. auto.
    + destruct Hs as [[_ [Hr|Hr]]|(_ & Hr & _)]; rewrite Hr; reflexivity.
  - (* valid *)
    destruct Hs as (t & Hg & Hr & Ht).
    split; [split; [|reflexivity]|].
    { intros _. exists t. split; [exact Hr|]. intros ->. discriminate. }
    split; [intros _; split; [congruence|eauto]|].
    split; [discriminate|]. split; [auto|]. split; [discriminate|].
    rewrite Hr. cbn. rewrite (trim_truthy t Ht). reflexivity.
  - (* invalid *)
    destruct Hs as [Hg Hr].
    split; [split; [discriminate|]|].
    { intros (t & Ht & Hne). rewrite Hr in Ht. congruence. }
    split; [discriminate|]. split; [auto|].
    split; [intros t Ht; congruence|]. split; [discriminate|].
    rewrite Hr. reflexivity.
  - destruct Hs.
Qed.

End TokenSessions.

(** ** The page: roster, selection and error banner *)

Section Page.
Import FileUpload Index.

Lemma processExcelFile_inr (jsonData validTeams : list Row) :
  FileUpload.processExcelFile jsonData = inr validTeams ->
  validTeams = List.filter validTeam jsonData /\ validTeams <> [].
Proof.
  unfold FileUpload.processExcelFile. destruct jsonData as [|firstRow rest]; [discriminate|].
  destruct (negb (hasKey (TeamName firstRow)) || negb (hasKey (GitHubURL firstRow)));
    [discriminate|].
  destruct (List.filter validTeam (firstRow :: rest)) as [|t ts]; [discriminate|].
  intros [= <-]. split; [reflexivity|discriminate].
Qed.

Lemma validTeam_strings (team : Row) :
  validTeam team = true <->
  exists name url, TeamName team = Some (CString name) /\ GitHubURL team = Some (CString url)
                   /\ name <> "" /\ url <> "".
Proof.
  unfold validTeam. rewrite !andb_true_iff. split.
  - intros [[[H1 H2] H3] H4].
    destruct (TeamName team) as [[name| |]|]; try discriminate.
    destruct (GitHubURL team) as [[url| |]|]; try discriminate.
    exists name, url. destruct name, url; try discriminate.
    repeat split; discriminate.
  - intros (n & u & -> & -> & Hn & Hu). destruct n, u; cbn; try congruence; auto.
Qed.

Lemma initial_Consistent : Consistent initial.
Proof.
  split; cbn; [constructor|discriminate|reflexivity|auto].
Qed.

Lemma step_Consistent (s : State) (e : Event) : Consistent s -> Consistent (step s e).
Proof.
  intros [Hteams Hsel Herr Hup]. unfold step, screen.
  destruct e as [[file|]|index|value].
  - destruct (teams s) as [|t ts] eqn:Hts; [|split; rewrite ?Hts; assumption].
    destruct (Hup eq_refl) as [Hnone Htoken].
    destruct file as [jsonData|errorMessage]; cbn [Index.processExcelFile].
    + destruct (FileUpload.processExcelFile jsonData) as [err|validTeams] eqn:Hp.
      * split; cbn; rewrite ?Hts; auto.
      * apply processExcelFile_inr in Hp as [-> Hne].
        split; cbn; [|discriminate|congruence|tauto].
        apply Forall_forall. intros team Hteam.
        apply list_elem_of_In, filter_In in Hteam. tauto.
    + split; cbn; rewrite ?Hts; auto.
  - split; assumption.
  - destruct (teams s) as [|t ts] eqn:Hts; [split; rewrite ?Hts; assumption|].
    destruct (nth_error (t :: ts) index) as [team|] eqn:Hnth;
      [|split; rewrite ?Hts; assumption].
    split; cbn; rewrite ?Hts.
    + exact Hteams.
    + intros team' [= <-]. eapply nth_error_In, Hnth.
    + congruence.
    + discriminate.
  - destruct (teams s) as [|t ts] eqn:Hts; [split; rewrite ?Hts; assumption|].
    split; cbn; rewrite ?Hts; [assumption|assumption| |discriminate].
    intros He. specialize (Herr He). discriminate.
Qed.

Lemma fold_Consistent (events : list Event) :
  forall s, Consistent s -> Consistent (fold_left step events s).
Proof.
  induction events as [|e events IH]; intros s Hs; [exact Hs|].
  cbn [fold_left]. apply IH, step_Consistent, Hs.
Qed.

Lemma after_Consistent (events : list Event) : Consistent (after events).
Proof. apply fold_Consistent, initial_Consistent. Qed.

(** On the dashboard screen no event changes the roster. *)
Lemma step_keeps_roster (s : State) (e : Event) :
  teams s <> [] -> teams (step s e) = teams s.
Proof.
  intros Hne. unfold step, screen.
  destruct (teams s) as [|t ts] eqn:Hts; [congruence|].
  destruct e as [[file|]|index|value]; try exact Hts.
  destruct (nth_error (t :: ts) index); exact Hts.
Qed.

Lemma fold_keeps_roster (more : list Event) :
  forall s, teams s <> [] -> teams (fold_left step more s) = teams s.
Proof.
  induction more as [|e more IH]; intros s Hne; [reflexivity|].
  cbn [fold_left]. rewrite IH; rewrite step_keeps_roster; auto.
Qed.

(** X16: whatever is dropped, clicked or reported, between two events:
    every team of the roster has a non-empty text as name and as URL; a
    selected team is a team of the roster; an error message is present
    only while the upload screen is shown, where no team is selected and
    the page holds no token; and once the dashboard screen is shown, no
    later event changes the roster, so the upload screen never
    returns. *)
Theorem X16_page_states :
  forall events : list Event,
    let s := after events in
    Forall (fun team =>
      exists name url, TeamName team = Some (CString name)
                       /\ GitHubURL team = Some (CString url)
                       /\ name <> "" /\ url <> "") (teams s)
    /\ (forall team, selectedTeam s = Some team -> In team (teams s))
    /\ (error s <> None -> screen s = UploadScreen)
    /\ (screen s = UploadScreen -> selectedTeam s = None /\ githubToken s = "")
    /\ (forall more, screen s = DashboardScreen ->
          teams (after (events ++ more)) = teams s
          /\ screen (after (events ++ more)) = DashboardScreen).
Proof.
  intros events s. destruct (after_Consistent events) as [Hteams Hsel Herr Hup].
  fold s in Hteams, Hsel, Herr, Hup.
  split; [|split; [exact Hsel|split; [|split]]].
  - eapply Forall_impl; [exact Hteams|]. intros team Hteam. apply validTeam_strings, Hteam.
  - intros He. unfold screen. rewrite (Herr He). reflexivity.
  - unfold screen. intros Hscreen. apply Hup. destruct (teams s); [reflexivity|discriminate].
  - intros more Hscreen. unfold after. rewrite fold_left_app. fold (after events). fold s.
    assert (Hne : teams s <> []) by (unfold screen in Hscreen; destruct (teams s); congruence).
    pose proof (fold_keeps_roster more s Hne) as Hsame.
    split; [exact Hsame|]. unfold screen. rewrite Hsame.
    destruct (teams s); [congruence|reflexivity].
Qed.

Lemma strictEquals_strings (a b : Row) :
  validTeam a = true -> validTeam b = true ->
  strictEquals (TeamName a) (TeamName b) = true <-> TeamName a = TeamName b.
Proof.
  intros Ha Hb.
  apply validTeam_strings in Ha as (na & ua & -> & _).
  apply validTeam_strings in Hb as (nb & ub & -> & _).
  cbn. rewrite String.eqb_eq. split; congruence.
Qed.

(** X17: clicking a row of the team selector selects the team of that
    row.  The selector then marks exactly the rows whose team name is
    that of the selected team: the clicked row always, no other row when
    the names of the roster are distinct, and every row of the same name
    otherwise.  Before any selection no row is marked. *)
Theorem X17_selector_marks :
  forall (events : list Event) (index : nat) (team : Row),
    nth_error (teams (after events)) index = Some team ->
    let s := after (events ++ [Click index]) in
    teams s = teams (after events)
    /\ selectedTeam s = Some team
    /\ marked (selectedTeam s) team = true
    /\ (forall other, In other (teams s) ->
          marked (selectedTeam s) other = true <-> TeamName other = TeamName team)
    /\ (NoDup (map TeamName (teams s)) ->
        forall j other, nth_error (teams s) j = Some other ->
                        marked (selectedTeam s) other = true -> j = index)
    /\ (forall other, In other (teams s) -> marked None other = false).
Proof.
  intros events index team Hnth s.
  destruct (after_Consistent events) as [Hteams _ _ _].
  assert (Hs : s = handleTeamSelect team (after events)).
  { subst s. unfold after. rewrite fold_left_app. cbn [fold_left]. fold (after events).
    unfold step, screen. destruct (teams (after events)) as [|t ts] eqn:Hts.
    - destruct index; discriminate.
    - rewrite Hnth. reflexivity. }
  rewrite Hs. cbn [handleTeamSelect teams selectedTeam].
  rewrite Forall_forall in Hteams.
  assert (Hteam : validTeam team = true)
    by (apply Hteams, list_elem_of_In; eapply nth_error_In, Hnth).
  assert (Hmark : forall other, In other (teams (after events)) ->
            marked (Some team) other = true <-> TeamName other = TeamName team).
  { intros other Hother. unfold marked. cbn.
    rewrite strictEquals_strings
      by (try exact Hteam; apply Hteams, list_elem_of_In, Hother).
    split; congruence. }
  split; [reflexivity|]. split; [reflexivity|].
  split; [apply Hmark; [eapply nth_error_In, Hnth|reflexivity]|].
  split; [exact Hmark|]. split.
  - intros Hnd j other Hj Hm.
    apply Hmark in Hm; [|eapply nth_error_In, Hj].
    apply (NoDup_nth_error (map TeamName (teams (after events)))).
    + apply NoDup_ListNoDup, Hnd.
    + rewrite length_map. apply nth_error_Some. congruence.
    + rewrite !nth_error_map, Hj, Hnth. cbn. congruence.
  - intros other Hother. unfold marked. cbn.
    apply list_elem_of_In, Hteams, validTeam_strings in Hother as (n & u & -> & _).
    reflexivity.
Qed.

Lemma X17_selector_marks_witness :
  let s := after (PageScenario.loaded ++ [Click 1]) in
  selectedTeam s = Some (PageScenario.team "B" "https://github.com/x/z")
  /\ marked (selectedTeam s) (PageScenario.team "A" "https://github.com/x/y") = false.
Proof.
  pose proof (X17_selector_marks PageScenario.loaded 1
                (PageScenario.team "B" "https://github.com/x/z") eq_refl)
    as (_ & Hsel & _).
  split; [exact Hsel|]. vm_compute. reflexivity.
Defined.

End Page.

(** ** Commit analytics: the contributor card *)

Section ContributorCard.
Import CommitAnalytics.

Lemma sum_plus {A} (f g : A -> Z) (l : list A) :
  fold_right Z.add 0 (map (fun x => f x + g x) l) =
  fold_right Z.add 0 (map f l) + fold_right Z.add 0 (map g l).
Proof. induction l as [|x l IH]; cbn; lia. Qed.

Lemma sum_firstn_le (n : nat) (l : list Z) :
  Forall (fun x => 0 <= x) l ->
  0 <= fold_right Z.add 0 (firstn n l) <= fold_right Z.add 0 l.
Proof.
  intros Hl. revert n. induction Hl as [|x l Hx Hl IH]; intros [|n]; cbn; try lia.
  - specialize (IH 0%nat). cbn in IH. lia.
  - specialize (IH n). change (take n l) with (firstn n l). lia.
Qed.

Lemma name_indicator_sum (n : string) (keys : list string) :
  NoDup keys ->
  fold_right Z.add 0 (map (fun k => if String.eqb k n then 1 else 0) keys) =
  (if existsb (fun k => String.eqb k n) keys then 1 else 0).
Proof.
  induction 1 as [|k keys Hk Hnd IH]; [reflexivity|].
  cbn [map fold_right existsb]. rewrite IH.
  destruct (String.eqb_spec k n) as [->|Hne]; cbn [orb]; [|lia].
  replace (existsb (fun k => String.eqb k n) keys) with false; [lia|].
  symmetry. apply not_true_is_false. intros H.
  apply existsb_exists in H as (y & Hy & Heq). apply String.eqb_eq in Heq. subst y.
  apply Hk, list_elem_of_In, Hy.
Qed.

Lemma occurrences_sum (keys names : list string) :
  NoDup keys ->
  fold_right Z.add 0 (map (fun k => Counting.occurrences k names) keys) =
  Z.of_nat (List.length
    (List.filter (fun n => existsb (fun k => String.eqb k n) keys) names)).
Proof.
  intros Hnd. induction names as [|n names IH].
  - unfold Counting.occurrences. cbn. clear Hnd.
    induction keys as [|k keys IHk]; [reflexivity|]. cbn. exact IHk.
  - cbn [List.filter].
    rewrite (map_ext _ (fun k => (if String.eqb k n then 1 else 0)
                                 + Counting.occurrences k names)).
    + rewrite sum_plus, IH, name_indicator_sum by exact Hnd.
      destruct (existsb _ keys); cbn [List.length]; lia.
    + intros k. unfold Counting.occurrences. cbn [List.filter].
      destruct (String.eqb k n); cbn [List.length]; lia.
Qed.

(** X18: the number on the Contributors card is the number of distinct
    counted contributor names, capped at five.  Every ranked contributor
    has at least one commit; the commits of the ranked contributors
    together are at most the total on the Commits card, and equal to it
    when there are at most five distinct names and none of them is a name
    that a plain object inherits. *)
Theorem X18_contributors_card :
  forall (now : Z) (dateRange : option DateRange) (commits : list CommitData),
    let analytics := processCommitData now dateRange commits in
    let names := map contributorName commits in
    RankingView.contributorsCard analytics =
      Z.min 5 (Z.of_nat (List.length (RankingView.distinctCounted names)))
    /\ Forall (fun r => 1 <= contributor_commits r) (topContributors analytics)
    /\ 0 <= RankingView.rankedCommits analytics <= totalCommits analytics
    /\ ((List.length (RankingView.distinctCounted names) <= 5)%nat ->
        Forall (fun n => JS.inherited n = false) names ->
        RankingView.rankedCommits analytics = totalCommits analytics).
Proof.
  intros now dateRange commits analytics names.
  destruct (sorted_entries commits) as (_ & Hnd & Hin & Hcount).
  fold names in Hin, Hcount.
  set (sorted := JS.sort byCountDescending (JS.entries (contributorCounts commits))) in *.
  assert (Hranking : topContributors analytics = map asContributor (firstn 5 sorted))
    by reflexivity.
  assert (Hkeys : forall k, In k (map fst sorted) <-> In k names /\ JS.inherited k = false).
  { intros k. rewrite in_map_iff. split.
    - intros (e & <- & He). apply Hin in He. tauto.
    - intros [Hk Hinh].
      destruct (contributorCounts_Counted commits) as [Hown _ _ _].
      assert (Hk' : In k (JS.ownKeys (contributorCounts commits))) by (apply Hown; tauto).
      apply in_map_iff in Hk' as ([k' d] & Hfst & Hk'). cbn in Hfst. subst k'.
      exists (k, d). split; [reflexivity|].
      subst sorted. rewrite sort_In, entries_In. exact Hk'. }
  assert (Hlen : List.length sorted = List.length (RankingView.distinctCounted names)).
  { rewrite <- (length_map fst sorted). apply Permutation_length.
    apply NoDup_Permutation; [exact Hnd|apply NoDup_ListNoDup, NoDup_nodup|].
    intros k. rewrite !list_elem_of_In, Hkeys. unfold RankingView.distinctCounted.
    rewrite nodup_In, filter_In, negb_true_iff. reflexivity. }
  assert (Hone : Forall (fun e => 1 <= count (snd e)) sorted).
  { apply Forall_forall. intros e He. apply list_elem_of_In in He.
    rewrite (Hcount e He). apply Hin in He as (Hname & _).
    unfold Counting.occurrences.
    destruct (List.filter (String.eqb (fst e)) names) as [|x xs] eqn:Hf; [|cbn; lia].
    exfalso. assert (Hx : In (fst e) (List.filter (String.eqb (fst e)) names))
      by (apply filter_In; split; [exact Hname|apply String.eqb_refl]).
    rewrite Hf in Hx. destruct Hx. }
  assert (Hall : fold_right Z.add 0 (map (fun e => count (snd e)) sorted) =
                 Z.of_nat (List.length
                   (List.filter (fun n => existsb (fun k => String.eqb k n) (map fst sorted))
                      names))).
  { rewrite <- occurrences_sum by exact Hnd. rewrite map_map. f_equal.
    apply map_ext_in. intros e He. apply Hcount, He. }
  assert (Hsum : RankingView.rankedCommits analytics =
                 fold_right Z.add 0 (firstn 5 (map (fun e => count (snd e)) sorted))).
  { unfold RankingView.rankedCommits. rewrite Hranking, map_map, firstn_map. reflexivity. }
  assert (Hnn : Forall (fun x => 0 <= x) (map (fun e => count (snd e)) sorted)).
  { apply Forall_map. eapply Forall_impl; [exact Hone|]. cbv beta. intros; lia. }
  split; [|split; [|split]].
  - unfold RankingView.contributorsCard. rewrite Hranking, length_map, length_firstn, Hlen. lia.
  - rewrite Hranking. apply Forall_map, Forall_forall. intros e He.
    apply list_elem_of_In, In_firstn in He. rewrite Forall_forall in Hone.
    apply Hone, list_elem_of_In, He.
  - rewrite Hsum. pose proof (sum_firstn_le 5 _ Hnn) as [H0 H1].
    split; [exact H0|]. etransitivity; [exact H1|]. rewrite Hall.
    change (totalCommits analytics) with (Z.of_nat (List.length commits)).
    rewrite <- (length_map contributorName commits). fold names.
    apply inj_le, filter_length_le.
  - intros Hfive Hinh. rewrite Hsum, firstn_all2 by (rewrite length_map, Hlen; exact Hfive).
    rewrite Hall. change (totalCommits analytics) with (Z.of_nat (List.length commits)).
    rewrite <- (length_map contributorName commits). fold names. f_equal. f_equal.
    rewrite Forall_forall in Hinh.
    assert (Hf : forall l, (forall n, In n l -> In n names) ->
              List.filter (fun n => existsb (fun k => String.eqb k n) (map fst sorted)) l = l).
    { induction l as [|n l IH]; intros Hl; [reflexivity|]. cbn [List.filter].
      replace (existsb (fun k => String.eqb k n) (map fst sorted)) with true.
      - f_equal. apply IH. intros; apply Hl; right; assumption.
      - symmetry. apply existsb_exists. exists n. split; [|apply String.eqb_refl].
        apply Hkeys. split; [apply Hl; left; reflexivity|].
        apply Hinh, list_elem_of_In, Hl. left. reflexivity. }
    apply Hf. tauto.
Qed.

End ContributorCard.

(** ** The locator parser on repository paths *)

Section LocatorPaths.
Import GitHubUrl LocatorShape.
Variable pathname : string -> option string.

Lemma split_segment (w rest : string) :
  JS.hasChar "/" w = false ->
  JS.split "/" (w ++ String "/" rest) = w :: JS.split "/" rest.
Proof.
  induction w as [|c w IH]; intros Hw; [reflexivity|].
  cbn [JS.hasChar] in Hw. apply orb_false_iff in Hw as [Hc Hw].
  change (String c w ++ String "/" rest) with (String c (w ++ String "/" rest)).
  cbn [JS.split]. rewrite Hc, (IH Hw). reflexivity.
Qed.

Lemma split_last (w : string) : JS.hasChar "/" w = false -> JS.split "/" w = [w].
Proof.
  induction w as [|c w IH]; intros Hw; [reflexivity|].
  cbn [JS.hasChar] in Hw. apply orb_false_iff in Hw as [Hc Hw].
  cbn [JS.split]. rewrite Hc, (IH Hw). reflexivity.
Qed.

Lemma pathParts_slash (path : string) : pathParts (String "/" path) = pathParts path.
Proof. reflexivity. Qed.

Lemma pathParts_slashes (n : nat) (path : string) :
  pathParts (slashes n ++ path) = pathParts path.
Proof. induction n as [|n IH]; [reflexivity|]. exact IH. Qed.

Lemma pathParts_segment (w rest : string) :
  segment w = true ->
  pathParts (w ++ String "/" rest) = w :: pathParts rest.
Proof.
  unfold segment. intros Hw. apply andb_true_iff in Hw as [Hne Hw].
  apply negb_true_iff in Hw. unfold pathParts. rewrite split_segment by exact Hw.
  cbn [List.filter]. rewrite Hne. reflexivity.
Qed.

Lemma pathParts_segment_tail (w rest : string) :
  segment w = true -> tail rest = true ->
  pathParts (w ++ rest) = w :: pathParts rest.
Proof.
  intros Hw Hrest. destruct rest as [|c rest].
  - unfold segment in Hw. apply andb_true_iff in Hw as [Hne Hw].
    apply negb_true_iff in Hw. unfold pathParts.
    replace (w ++ "") with w
      by (clear; induction w as [|c w IH]; [reflexivity|];
          change (String c w ++ "") with (String c (w ++ "")); rewrite <- IH; reflexivity).
    rewrite split_last by exact Hw. cbn [List.filter JS.split]. rewrite Hne. reflexivity.
  - cbn [tail] in Hrest. apply Ascii.eqb_eq in Hrest. subst c.
    rewrite pathParts_segment by exact Hw. rewrite pathParts_slash. reflexivity.
Qed.

(** X19: when the path of the URL is an owner segment and a repository
    segment, each preceded by one or more slashes, followed by nothing or
    by a slash and anything at all, the parser returns that owner and that
    repository, unchanged: further segments and repeated or trailing
    slashes are ignored, and nothing is stripped from the repository
    segment. *)
Theorem X19_repository_paths :
  forall (url : string) (before between : nat) (owner repo rest : string),
    pathname url = Some (repositoryPath before between owner repo rest) ->
    segment owner = true -> segment repo = true -> tail rest = true ->
    extractRepoInfo pathname url = inr {| GitHubUrl.owner := owner; GitHubUrl.repo := repo |}.
Proof.
  intros url before between owner repo rest Hpath Howner Hrepo Hrest.
  unfold extractRepoInfo, repositoryPath. rewrite Hpath. unfold repositoryPath.
  rewrite pathParts_slashes.
  change (slashes (S between) ++ repo ++ rest)
    with (String "/" (slashes between ++ repo ++ rest)).
  rewrite pathParts_segment by exact Howner.
  rewrite pathParts_slashes, pathParts_segment_tail by assumption.
  reflexivity.
Qed.

End LocatorPaths.

Lemma X19_repository_paths_witness :
  GitHubUrl.extractRepoInfo LocatorScenario.afterHost
    "https://github.com/octo/hello.git/tree/main" =
  inr {| GitHubUrl.owner := "octo"; GitHubUrl.repo := "hello.git" |}
  /\ GitHubUrl.extractRepoInfo LocatorScenario.afterHost "https://github.com//octo//hello/" =
     inr {| GitHubUrl.owner := "octo"; GitHubUrl.repo := "hello" |}.
Proof.
  split.
  - apply (X19_repository_paths LocatorScenario.afterHost
             "https://github.com/octo/hello.git/tree/main" 1 0 "octo" "hello.git" "/tree/main");
      reflexivity.
  - apply (X19_repository_paths LocatorScenario.afterHost
             "https://github.com//octo//hello/" 2 1 "octo" "hello" "/"); reflexivity.
Defined.

(** ** The roster loader on its own output *)

Section RosterReload.
Import FileUpload.

Lemma filter_none (junk : list Row) :
  Forall (fun row => validTeam row = false) junk -> List.filter validTeam junk = [].
Proof.
  induction 1 as [|row junk Hrow Hjunk IH]; [reflexivity|].
  cbn [List.filter]. rewrite Hrow. exact IH.
Qed.

Lemma filter_all (teams : list Row) :
  Forall (fun row => validTeam row = true) teams -> List.filter validTeam teams = teams.
Proof.
  induction 1 as [|row teams Hrow Hteams IH]; [reflexivity|].
  cbn [List.filter]. rewrite Hrow, IH. reflexivity.
Qed.

Lemma validTeam_hasKeys (team : Row) :
  validTeam team = true ->
  negb (hasKey (TeamName team)) || negb (hasKey (GitHubURL team)) = false.
Proof.
  intros H. apply validTeam_strings in H as (n & u & -> & -> & _). reflexivity.
Qed.

(** X20: a roster the loader returns is returned unchanged when loaded
    again; it has no more teams than the sheet has rows; and rows without
    a valid team, added after the rows of the sheet, change nothing. *)
Theorem X20_roster_reload :
  forall rows teams : list Row,
    processExcelFile rows = inr teams ->
    processExcelFile teams = inr teams
    /\ (List.length teams <= List.length rows)%nat
    /\ (forall junk, Forall (fun row => validTeam row = false) junk ->
                     processExcelFile (rows ++ junk) = inr teams).
Proof.
  intros rows teams Hload.
  destruct (processExcelFile_inr rows teams Hload) as [Hteams Hne].
  assert (Hvalid : Forall (fun row => validTeam row = true) teams).
  { apply Forall_forall. intros row Hrow. rewrite Hteams in Hrow.
    apply list_elem_of_In, filter_In in Hrow. tauto. }
  split; [|split].
  - destruct teams as [|first rest] eqn:Heq; [congruence|].
    unfold processExcelFile. rewrite validTeam_hasKeys by (inversion Hvalid; assumption).
    rewrite filter_all by exact Hvalid. reflexivity.
  - rewrite Hteams. apply filter_length_le.
  - intros junk Hjunk. destruct rows as [|first rest]; [discriminate|].
    unfold processExcelFile in Hload.
    destruct (negb (hasKey (TeamName first)) || negb (hasKey (GitHubURL first))) eqn:Hkeys;
      [discriminate|].
    change ((first :: rest) ++ junk)%list with (first :: (rest ++ junk))%list.
    unfold processExcelFile. rewrite Hkeys.
    change (first :: (rest ++ junk))%list with ((first :: rest) ++ junk)%list.
    rewrite List.filter_app, (filter_none junk Hjunk), app_nil_r, <- Hteams.
    destruct teams; [congruence|reflexivity].
Qed.

Lemma X20_roster_reload_witness :
  processExcelFile [Scenario.rowA] = inr [Scenario.rowA]
  /\ processExcelFile ([Scenario.rowA; Scenario.rowB] ++ [Scenario.rowNoUrl]) =
     inr [Scenario.rowA].
Proof.
  pose proof (X20_roster_reload [Scenario.rowA; Scenario.rowB] [Scenario.rowA] eq_refl)
    as (Hagain & _ & Hjunk).
  split; [exact Hagain|]. apply Hjunk. repeat constructor.
Defined.

End RosterReload.
